(** * Todo-AI-Chatbot backend: conversational turn pipeline

    A shallow embedding of the Python backend (conversation manager,
    agent orchestrator, task tools, chat route) and the properties of
    its specification.

    Conventions of the embedding:
    - a Python [str] is a list of Unicode code points ([str := list N]),
      so that [len] counts characters as Python does;
    - a Python [int] is a [Z]; [Optional[T]] is [option T];
    - database tables keyed by their primary key are finite maps
      ([gmap Z row]); the message log, whose order matters, is a list;
    - a raised exception is the left side of a sum type;
    - instants read from [datetime.utcnow()] are arguments of the
      operation that reads them. *)

From Stdlib Require Import ZArith String Ascii Sorted.
From stdpp Require Import base numbers list option gmap pretty sorting.

Local Open Scope Z_scope.

#[local] Set Warnings "-clear-no-such-hyp".

(** ** Python strings *)

Module Py.

Definition str := list N.

(** A source literal, character by character. *)
Definition lit (s : string) : str :=
  map N_of_ascii (list_ascii_of_string s).

(** [len(s)] *)
Definition len {A} (s : list A) : Z := Z.of_nat (length s).

(** Truthiness of a string: [bool(s)]; [not s] is its negation. *)
Definition truthy {A} (s : list A) : bool :=
  match s with [] => false | _ => true end.

(** [c in s] for a one-character [c]. *)
Definition contains (c : N) (s : str) : bool := existsb (N.eqb c) s.

(** [s.replace(c, new)] for a one-character pattern [c]. *)
Definition replace (c : N) (new : str) (s : str) : str :=
  flat_map (fun x => if N.eqb x c then new else [x]) s.

(** [str.isspace] on one character: the code points CPython's
    [_PyUnicode_IsWhitespace] accepts. *)
Definition isspace (c : N) : bool :=
  (((9 <=? c) && (c <=? 13)) || ((28 <=? c) && (c <=? 32))
   || (c =? 133) || (c =? 160) || (c =? 5760)
   || ((8192 <=? c) && (c <=? 8202))
   || (c =? 8232) || (c =? 8233) || (c =? 8239) || (c =? 8287)
   || (c =? 12288))%N.

Fixpoint lstrip (s : str) : str :=
  match s with
  | [] => []
  | c :: s' => if isspace c then lstrip s' else s
  end.

Definition rstrip (s : str) : str := rev (lstrip (rev s)).

(** [s.strip()] *)
Definition strip (s : str) : str := rstrip (lstrip s).

(** [x or d] on integers, with [None] for an argument left out. *)
Definition int_or (x : option Z) (d : Z) : Z :=
  match x with
  | Some v => if v =? 0 then d else v
  | None => d
  end.

End Py.

Import Py.

(** ** Persistent state (app/models, app/database.py)

    The three tables.  [conversations] and [tasks] are keyed by their
    primary key, so a row does not repeat its [id]; the message log is
    kept in insertion order.  The [next_*] counters are the
    auto-increment sequences. *)

Record Conversation := mkConversation {
  conv_user_id : str;
  conv_created_at : Z;
  conv_updated_at : Z
}.

Record Message := mkMessage {
  msg_id : Z;
  msg_conversation_id : Z;
  msg_user_id : str;
  msg_role : str;
  msg_content : str;
  msg_created_at : Z
}.

(** Modelled from the spec: the [Task] table and the [TaskCreate] schema
    of app/models/task.py, which is not among the sources.  The spec's
    persisted layout is Task(id, user_id, title, description, completed,
    created_at, updated_at); [TaskCreate] is taken to carry title,
    description and completed as given, with no validation of its own. *)
Record Task := mkTask {
  task_user_id : str;
  task_title : str;
  task_description : option str;
  task_completed : bool;
  task_created_at : Z;
  task_updated_at : Z
}.

Record Store := mkStore {
  conversations : gmap Z Conversation;
  messages : list Message;
  tasks : gmap Z Task;
  next_conversation_id : Z;
  next_message_id : Z;
  next_task_id : Z
}.

(** A tool call requested by the model: [{id, name, arguments}], the
    arguments being an opaque (JSON) string. *)
Record ToolCall := mkToolCall {
  tc_id : str;
  tc_name : str;
  tc_arguments : str
}.

(** A chat message dictionary as handed to the completion engine:
    [role] and [content], and [tool_calls] when that key is present. *)
Record ChatMessage := mkChatMessage {
  role : str;
  content : str;
  tool_calls : option (list ToolCall)
}.

(** ** Conversation manager (app/agent/conversation_manager.py) *)

Module conversation_manager.

(** The manager's tunable state.  [tokenizer] is the tiktoken encoder
    when the library is installed and [None] otherwise. *)
Record ConversationManager := mkManager {
  max_history_messages : Z;
  max_context_tokens : Z;
  tokenizer : option (str -> list Z)
}.

(** [ConversationManager()] on a host without tiktoken. *)
Definition default_manager : ConversationManager :=
  {| max_history_messages := 20; max_context_tokens := 4000;
     tokenizer := None |}.

Definition count_tokens (cm : ConversationManager) (text : str) : Z :=
  match tokenizer cm with
  | Some encode => len (encode text)
  | None => len text / 4
  end.

(** [sum(self.count_tokens(msg["content"]) for msg in messages)] *)
Definition total_tokens (cm : ConversationManager)
    (msgs : list ChatMessage) : Z :=
  foldr (fun msg acc => count_tokens cm (content msg) + acc) 0 msgs.

(** The loop [for msg in reversed(messages)]: [pending] is what is
    left of the reversed list, [truncated] and [current_tokens] are
    the loop's two variables; leaving the match is the [break]. *)
Fixpoint truncate_loop (cm : ConversationManager) (max_tokens : Z)
    (pending : list ChatMessage) (truncated : list ChatMessage)
    (current_tokens : Z) : list ChatMessage :=
  match pending with
  | [] => truncated
  | msg :: older =>
      let msg_tokens := count_tokens cm (content msg) in
      if current_tokens + msg_tokens <=? max_tokens
      then truncate_loop cm max_tokens older (msg :: truncated)
             (current_tokens + msg_tokens)
      else truncated
  end.

Definition truncate_history_by_tokens (cm : ConversationManager)
    (msgs : list ChatMessage) (max_tokens : option Z) : list ChatMessage :=
  let max_tokens := int_or max_tokens (max_context_tokens cm) in
  if total_tokens cm msgs <=? max_tokens then msgs
  else truncate_loop cm max_tokens (rev msgs) [] 0.

(** What the manager's operations raise: the four [ValueError]s, told
    apart by their message, and a failure of the database session. *)
Inductive Error :=
| ConversationNotFound
| UnauthorizedAccess
| InvalidRole
| InvalidContent
| SessionError.

Definition create_conversation (st : Store) (user_id : str)
    (created updated : Z) (fault : bool) : Store * (Error + Z) :=
  if fault then (st, inl SessionError)
  else
    let id := next_conversation_id st in
    (mkStore (<[id := mkConversation user_id created updated]> (conversations st))
             (messages st) (tasks st)
             (id + 1) (next_message_id st) (next_task_id st),
     inr id).

(** [fault] says that the session raises at [commit]: nothing of the
    transaction is persisted then.  [created] is the instant the
    message's [created_at] default reads, [now] the one assigned to
    the conversation's [updated_at].  [content] is [None] when the
    caller passes Python's [None], which [not content] rejects like
    the empty string. *)
Definition store_message (st : Store) (conversation_id : Z) (user_id : str)
    (role : str) (content : option str) (created now : Z) (fault : bool)
    : Store * (Error + Message) :=
  match conversations st !! conversation_id with
  | None => (st, inl ConversationNotFound)
  | Some conversation =>
      if bool_decide (conv_user_id conversation ≠ user_id)
      then (st, inl UnauthorizedAccess)
      else if negb (bool_decide (role ∈ [lit "user"; lit "assistant"]))
      then (st, inl InvalidRole)
      else
        match content with
        | None => (st, inl InvalidContent)
        | Some content =>
      if negb (truthy content) || (10000 <? len content)
      then (st, inl InvalidContent)
      else if fault then (st, inl SessionError)
      else
        let message :=
          mkMessage (next_message_id st) conversation_id user_id
                    role content created in
        let conversation' :=
          mkConversation (conv_user_id conversation)
                         (conv_created_at conversation) now in
        (mkStore (<[conversation_id := conversation']> (conversations st))
                 (messages st ++ [message]) (tasks st)
                 (next_conversation_id st) (next_message_id st + 1)
                 (next_task_id st),
         inr message)
        end
  end.

(** [ORDER BY created_at DESC], as a stable insertion sort: rows with
    equal instants, whose order SQL leaves open, keep their insertion
    order. *)
Fixpoint insert_desc (m : Message) (sorted : list Message) : list Message :=
  match sorted with
  | [] => [m]
  | x :: xs =>
      if msg_created_at x <=? msg_created_at m then m :: x :: xs
      else x :: insert_desc m xs
  end.

Definition order_by_created_at_desc (rows : list Message) : list Message :=
  foldr insert_desc [] rows.

(** The rows of [SELECT ... WHERE conversation_id = ...]. *)
Definition messages_of (st : Store) (conversation_id : Z) : list Message :=
  List.filter (fun m => msg_conversation_id m =? conversation_id) (messages st).

Definition format_message (m : Message) : ChatMessage :=
  mkChatMessage (msg_role m) (msg_content m) None.

(** [LIMIT n] keeps the first [n] rows; the model is meant for a
    non-negative [n] (a negative one is refused by PostgreSQL). *)
Definition get_conversation_history (cm : ConversationManager) (st : Store)
    (conversation_id : Z) (user_id : str) (limit : option Z)
    : Error + list ChatMessage :=
  match conversations st !! conversation_id with
  | None => inl ConversationNotFound
  | Some conversation =>
      if bool_decide (conv_user_id conversation ≠ user_id)
      then inl UnauthorizedAccess
      else
        let limit := int_or limit (max_history_messages cm) in
        let rows :=
          take (Z.to_nat limit)
               (order_by_created_at_desc (messages_of st conversation_id)) in
        let rows := rev rows in
        let formatted_messages := map format_message rows in
        inr (truncate_history_by_tokens cm formatted_messages None)
  end.

Definition get_conversation (st : Store) (conversation_id : Z) (user_id : str)
    : Error + Conversation :=
  match conversations st !! conversation_id with
  | None => inl ConversationNotFound
  | Some conversation =>
      if bool_decide (conv_user_id conversation ≠ user_id)
      then inl UnauthorizedAccess
      else inr conversation
  end.

(** [ORDER BY <column> ASC|DESC] on conversation rows, as a stable
    insertion sort on the column [key]. *)
Fixpoint insert_conversation (key : Conversation -> Z) (descending : bool)
    (r : Z * Conversation) (sorted : list (Z * Conversation))
    : list (Z * Conversation) :=
  match sorted with
  | [] => [r]
  | x :: xs =>
      if (if descending then key x.2 <=? key r.2 else key r.2 <=? key x.2)
      then r :: x :: xs
      else x :: insert_conversation key descending r xs
  end.

(** The conversations of [user_id], each with its id, ordered and cut
    to [limit] rows. *)
Definition list_conversations (st : Store) (user_id : str) (limit : Z)
    (sort_by order : str) : list (Z * Conversation) :=
  let rows :=
    List.filter (fun r : Z * Conversation =>
                   bool_decide (conv_user_id r.2 = user_id))
                (map_to_list (conversations st)) in
  let key :=
    if bool_decide (sort_by = lit "created_at") then conv_created_at
    else conv_updated_at in
  let descending := bool_decide (order = lit "desc") in
  take (Z.to_nat limit) (foldr (insert_conversation key descending) [] rows).

(** [delete_conversation]: the ownership check of [get_conversation],
    then every message of the conversation and the conversation itself
    are deleted in one commit.  The result is the pair
    (deleted_conversation_id, deleted_message_count). *)
Definition delete_conversation (st : Store) (conversation_id : Z)
    (user_id : str) (fault : bool) : Store * (Error + Z * Z) :=
  match get_conversation st conversation_id user_id with
  | inl e => (st, inl e)
  | inr _ =>
      if fault then (st, inl SessionError)
      else
        let message_count := len (messages_of st conversation_id) in
        (mkStore (delete conversation_id (conversations st))
                 (List.filter
                    (fun m => negb (msg_conversation_id m =? conversation_id))
                    (messages st))
                 (tasks st)
                 (next_conversation_id st) (next_message_id st)
                 (next_task_id st),
         inr (conversation_id, message_count))
  end.

End conversation_manager.

(** ** Input sanitizing (app/middleware/error_handler.py) *)

Module error_handler.

Definition sanitize_input (text : str) : str :=
  let text := replace 0%N [] text in
  let text := replace (N_of_ascii "&") (lit "&amp;") text in
  let text := replace (N_of_ascii "<") (lit "&lt;") text in
  let text := replace (N_of_ascii ">") (lit "&gt;") text in
  let text := replace 34%N (lit "&quot;") text in
  let text := replace 39%N (lit "&#x27;") text in
  text.

(** A JSON value of a response body, as far as the handler looks at
    it: a string, or anything else (here an integer). *)
Inductive Value :=
| VStr (s : str)
| VInt (n : Z).

(** [exc.detail]: a dict, a string, or [None]. *)
Inductive Detail :=
| DDict (d : gmap str Value)
| DStr (s : str)
| DNone.

(** The exception the handler receives.  For [exc_headers], [None]
    stands for an exception without the attribute ([hasattr] false) and
    [Some None] for the attribute holding [None]. *)
Record HTTPException := mkHTTPException {
  exc_status_code : Z;
  exc_detail : Detail;
  exc_headers : option (option (gmap str str))
}.

Record JSONResponse := mkJSONResponse {
  resp_status_code : Z;
  resp_content : gmap str Value
}.

(** What a handler does: it returns a response, or the [TypeError] of
    [in] applied to [None] leaves it. *)
Inductive Handled :=
| Returned (response : JSONResponse)
| RaisedTypeError.

Definition error_type_mapping (status_code : Z) : option str :=
  match status_code with
  | 400 => Some (lit "ValidationError")
  | 401 => Some (lit "Unauthorized")
  | 403 => Some (lit "Forbidden")
  | 404 => Some (lit "NotFound")
  | 429 => Some (lit "RateLimitExceeded")
  | 500 => Some (lit "InternalServerError")
  | 502 => Some (lit "BadGateway")
  | 503 => Some (lit "ServiceUnavailable")
  | 504 => Some (lit "GatewayTimeout")
  | _ => None
  end.

(** [http_exception_handler].  [py_int] is Python's [int] on a string,
    [None] standing for its [ValueError]. *)
Definition http_exception_handler (py_int : str -> option Z)
    (exc : HTTPException) : Handled :=
  match exc_detail exc with
  | DDict d =>
      let content :=
        match d !! lit "message" with
        | Some (VStr message) =>
            <[lit "message" := VStr (sanitize_input message)]> d
        | _ => d
        end in
      Returned (mkJSONResponse (exc_status_code exc) content)
  | other =>
      let sanitized_message :=
        match other with
        | DStr s => if truthy s then sanitize_input s else lit "An error occurred"
        | _ => lit "An error occurred"
        end in
      let error_type :=
        default (lit "HttpError") (error_type_mapping (exc_status_code exc)) in
      let content : gmap str Value :=
        <[lit "message" := VStr sanitized_message]>
          (<[lit "error" := VStr error_type]> ∅) in
      if exc_status_code exc =? 429 then
        match exc_headers exc with
        | None => Returned (mkJSONResponse (exc_status_code exc) content)
        | Some None => RaisedTypeError
        | Some (Some headers) =>
            match headers !! lit "Retry-After" with
            | None => Returned (mkJSONResponse (exc_status_code exc) content)
            | Some value =>
                match py_int value with
                | Some n =>
                    Returned (mkJSONResponse (exc_status_code exc)
                                (<[lit "retry_after" := VInt n]> content))
                | None => Returned (mkJSONResponse (exc_status_code exc) content)
                end
            end
        end
      else Returned (mkJSONResponse (exc_status_code exc) content)
  end.

End error_handler.

(** ** Task tools (app/mcp/tools) *)

(** The task dictionary a tool returns.  The timestamps stand for their
    [isoformat()] rendering. *)
Record TaskView := mkTaskView {
  tv_id : Z;
  tv_user_id : str;
  tv_title : str;
  tv_description : option str;
  tv_completed : bool;
  tv_created_at : Z;
  tv_updated_at : Z
}.

Definition task_view (id : Z) (t : Task) : TaskView :=
  mkTaskView id (task_user_id t) (task_title t) (task_description t)
             (task_completed t) (task_created_at t) (task_updated_at t).

(** The dictionaries the tools return. *)
Inductive ToolResult :=
| TaskResult (task : TaskView)
    (* {"success": True, "task": {...}} *)
| DeletedResult (deleted_task_id : Z) (message : str)
    (* {"success": True, "deleted_task_id": ..., "message": ...} *)
| ListResult (task_list : list TaskView) (total : Z) (has_more : bool)
    (* {"success": True, "tasks": [...], "total": ..., "has_more": ...} *)
| Failure (error : str) (message : str).
    (* {"success": False, "error": ..., "message": ...} *)

(** [select(Task).where(Task.id == task_id, Task.user_id == user_id)]
    followed by [.first()]. *)
Definition select_task (st : Store) (task_id : Z) (user_id : str) : option Task :=
  match tasks st !! task_id with
  | Some t => if bool_decide (task_user_id t = user_id) then Some t else None
  | None => None
  end.

Definition set_tasks (st : Store) (ts : gmap Z Task) : Store :=
  mkStore (conversations st) (messages st) ts
          (next_conversation_id st) (next_message_id st) (next_task_id st).

(** In every tool, [fault] says that the database session raises inside
    the handler's [try] block, at [commit] or earlier: nothing is
    persisted, and the handler's [except Exception] answers. *)

Module add_task.

Definition add_task_handler (st : Store) (user_id : str) (title : str)
    (description : option str) (created updated : Z) (fault : bool)
    : Store * ToolResult :=
  if negb (truthy title) || negb (truthy (strip title))
  then (st, Failure (lit "ValidationError") (lit "Title must not be empty"))
  else
    let title := strip title in
    if 200 <? len title
    then (st, Failure (lit "ValidationError")
                      (lit "Title must be between 1 and 200 characters"))
    else if contains 0%N title
    then (st, Failure (lit "ValidationError")
                      (lit "Title contains invalid characters"))
    else
      let checked : ToolResult + option str :=
        match description with
        | Some d =>
            if truthy d then
              let d := strip d in
              if 1000 <? len d
              then inl (Failure (lit "ValidationError")
                          (lit "Description must be 1000 characters or less"))
              else if contains 0%N d
              then inl (Failure (lit "ValidationError")
                          (lit "Description contains invalid characters"))
              else inr (Some (error_handler.sanitize_input d))
            else inr None
        | None => inr None
        end in
      match checked with
      | inl failure => (st, failure)
      | inr description =>
          let title := error_handler.sanitize_input title in
          if fault
          then (st, Failure (lit "DatabaseError") (lit "Failed to create task"))
          else
            let id := next_task_id st in
            let db_task :=
              mkTask user_id title description false created updated in
            (mkStore (conversations st) (messages st)
                     (<[id := db_task]> (tasks st))
                     (next_conversation_id st) (next_message_id st) (id + 1),
             TaskResult (task_view id db_task))
      end.

End add_task.

Module complete_task.

(** [task_id] is an [int] here, so [isinstance(task_id, int)] holds. *)
Definition validate_task_id (task_id : Z) : bool * option str :=
  if task_id <? 1 then (false, Some (lit "task_id must be a positive integer"))
  else (true, None).

Definition complete_task_handler (st : Store) (user_id : str) (task_id : Z)
    (now : Z) (fault : bool) : Store * ToolResult :=
  match validate_task_id task_id with
  | (false, error_message) =>
      (st, Failure (lit "ValidationError") (default [] error_message))
  | (true, _) =>
      if fault
      then (st, Failure (lit "DatabaseError")
                        (lit "Failed to complete task. Please try again."))
      else
        match select_task st task_id user_id with
        | None =>
            (st, Failure (lit "NotFoundError")
                         (lit "Task not found or does not belong to user"))
        | Some db_task =>
            let db_task :=
              mkTask (task_user_id db_task) (task_title db_task)
                     (task_description db_task) true
                     (task_created_at db_task) now in
            (set_tasks st (<[task_id := db_task]> (tasks st)),
             TaskResult (task_view task_id db_task))
        end
  end.

End complete_task.

Module delete_task.

Definition validate_task_id (task_id : Z) : bool * option str :=
  if task_id <? 1 then (false, Some (lit "task_id must be a positive integer"))
  else (true, None).

Definition delete_task_handler (st : Store) (user_id : str) (task_id : Z)
    (fault : bool) : Store * ToolResult :=
  match validate_task_id task_id with
  | (false, error_message) =>
      (st, Failure (lit "ValidationError") (default [] error_message))
  | (true, _) =>
      if fault
      then (st, Failure (lit "DatabaseError")
                        (lit "Failed to delete task. Please try again."))
      else
        match select_task st task_id user_id with
        | None =>
            (st, Failure (lit "NotFoundError")
                         (lit "Task not found or does not belong to user"))
        | Some _ =>
            (set_tasks st (delete task_id (tasks st)),
             DeletedResult task_id (lit "Task deleted successfully"))
        end
  end.

End delete_task.

Module update_task.

(** The tool's own sanitizer: null bytes out, then [strip]; unlike
    [error_handler.sanitize_input] it escapes nothing. *)
Definition sanitize_input (text : str) : str :=
  if negb (truthy text) then text
  else
    let text := replace 0%N [] text in
    let text := strip text in
    text.

Definition validate_update_params (task_id : Z) (title description : option str)
    (completed : option bool) : bool * option str :=
  if task_id <? 1
  then (false, Some (lit "task_id must be a positive integer"))
  else if bool_decide (title = None) && bool_decide (description = None)
          && bool_decide (completed = None)
  then (false, Some (lit "At least one of title, description, or completed must be provided"))
  else
    let title_error : option str :=
      match title with
      | Some title =>
          if negb (truthy title) || negb (truthy (strip title))
          then Some (lit "Title must not be empty or whitespace-only")
          else if 200 <? len title
          then Some (lit "Title must be between 1 and 200 characters")
          else if contains 0%N title
          then Some (lit "Title contains invalid characters")
          else None
      | None => None
      end in
    match title_error with
    | Some e => (false, Some e)
    | None =>
        let description_error : option str :=
          match description with
          | Some description =>
              if 1000 <? len description
              then Some (lit "Description must be 1000 characters or less")
              else if contains 0%N description
              then Some (lit "Description contains invalid characters")
              else None
          | None => None
          end in
        match description_error with
        | Some e => (false, Some e)
        | None => (true, None)
        end
    end.

Definition update_task_handler (st : Store) (user_id : str) (task_id : Z)
    (title description : option str) (completed : option bool)
    (now : Z) (fault : bool) : Store * ToolResult :=
  match validate_update_params task_id title description completed with
  | (false, error_message) =>
      (st, Failure (lit "ValidationError") (default [] error_message))
  | (true, _) =>
      let title := sanitize_input <$> title in
      let description := sanitize_input <$> description in
      if fault
      then (st, Failure (lit "DatabaseError")
                        (lit "Failed to update task. Please try again."))
      else
        match select_task st task_id user_id with
        | None =>
            (st, Failure (lit "NotFoundError")
                         (lit "Task not found or does not belong to user"))
        | Some db_task =>
            let db_task :=
              mkTask (task_user_id db_task)
                     (default (task_title db_task) title)
                     (match description with
                      | Some d => Some d
                      | None => task_description db_task
                      end)
                     (default (task_completed db_task) completed)
                     (task_created_at db_task) now in
            (set_tasks st (<[task_id := db_task]> (tasks st)),
             TaskResult (task_view task_id db_task))
        end
  end.

End update_task.

Module list_tasks.

Definition validate_list_params (filter_value : str) (limit offset : Z)
    : bool * option str :=
  if negb (bool_decide (filter_value ∈ [lit "all"; lit "pending"; lit "completed"]))
  then (false, Some (lit "Filter must be one of: all, pending, completed"))
  else if (limit <? 1) || (200 <? limit)
  then (false, Some (lit "Limit must be an integer between 1 and 200"))
  else if offset <? 0
  then (false, Some (lit "Offset must be a non-negative integer"))
  else (true, None).

(** [ORDER BY created_at DESC] on task rows (stable insertion sort). *)
Fixpoint insert_desc (r : Z * Task) (sorted : list (Z * Task)) : list (Z * Task) :=
  match sorted with
  | [] => [r]
  | x :: xs =>
      if task_created_at x.2 <=? task_created_at r.2 then r :: x :: xs
      else x :: insert_desc r xs
  end.

(** The handler only reads the store. *)
Definition list_tasks_handler (st : Store) (user_id : str) (filter_value : str)
    (limit offset : Z) (fault : bool) : ToolResult :=
  match validate_list_params filter_value limit offset with
  | (false, error_message) =>
      Failure (lit "ValidationError") (default [] error_message)
  | (true, _) =>
      if fault
      then Failure (lit "DatabaseError")
                   (lit "Failed to retrieve tasks. Please try again.")
      else
        let selected (r : Z * Task) : bool :=
          bool_decide (task_user_id r.2 = user_id)
          && (if bool_decide (filter_value = lit "pending")
              then negb (task_completed r.2)
              else if bool_decide (filter_value = lit "completed")
              then task_completed r.2
              else true) in
        let rows := List.filter selected (map_to_list (tasks st)) in
        let total := len rows in
        let db_tasks :=
          take (Z.to_nat limit)
               (drop (Z.to_nat offset) (foldr insert_desc [] rows)) in
        let has_more := offset + len db_tasks <? total in
        ListResult (map (fun r => task_view r.1 r.2) db_tasks) total has_more
  end.

End list_tasks.

(** ** Agent orchestrator (app/agent/orchestrator.py) *)

Module orchestrator.

(** The orchestrator's state.  The sampling temperature (a float) is
    handed to the engine untouched and is left out; [system_prompt]
    is the text [get_system_prompt()] returns. *)
Record AgentOrchestrator := mkOrchestrator {
  model : str;
  system_prompt : str
}.

Definition format_messages (orch : AgentOrchestrator)
    (conversation_history : list ChatMessage) (current_message : str)
    : list ChatMessage :=
  [mkChatMessage (lit "system") (system_prompt orch) None]
    ++ conversation_history
    ++ [mkChatMessage (lit "user") current_message None].

(** The classes the [except] clauses of [process_message] name. *)
Inductive ExcClass :=
| RateLimitError | AuthenticationError | APIConnectionError
| APIError | OpenAIError | Exception.

#[export] Instance ExcClass_eq_dec : EqDecision ExcClass.
Proof. solve_decision. Defined.

(** A raised exception: the classes, among those named, it is an
    instance of; its [status_code] attribute when it has one; and
    [str(e)]. *)
Record Raised := mkRaised {
  classes : list ExcClass;
  status_code : option Z;
  text : str
}.

Definition isinstance (e : Raised) (c : ExcClass) : bool :=
  bool_decide (c ∈ classes e).

(** [response.choices[i]]: the stop condition and the message. *)
Record Choice := mkChoice {
  choice_finish_reason : str;
  choice_content : option str;
  choice_tool_calls : option (list ToolCall)
}.

Record Request := mkRequest {
  req_model : str;
  req_messages : list ChatMessage;
  req_tools : option (list str);
  req_tool_choice : option str
}.

(** What [client.chat.completions.create] does. *)
Inductive EngineOutcome :=
| Completed (choices : list Choice)
| Raises (e : Raised).

Record ErrorInfo := mkErrorInfo {
  err_type : str;
  err_message : str;
  err_user_message : str
}.

(** The dictionary [process_message] returns; [None] in
    [result_tool_calls] and [error] is an absent key. *)
Record AgentResult := mkAgentResult {
  finish_reason : str;
  response : option str;
  result_tool_calls : option (list ToolCall);
  error : option ErrorInfo
}.

Inductive Outcome :=
| Returns (r : AgentResult)
| Propagates (e : Raised).

Definition error_result (reply type message user_message : str) : Outcome :=
  Returns (mkAgentResult (lit "error") (Some reply) None
             (Some (mkErrorInfo type message user_message))).

(** The chain of [except] clauses, tried in source order. *)
Definition handle_exception (e : Raised) : Outcome :=
  if isinstance e RateLimitError then
    error_result
      (lit "I'm experiencing high demand right now. Please try again in a moment.")
      (lit "RateLimitError") (lit "OpenAI API rate limit exceeded")
      (lit "I'm experiencing high demand right now. Please try again in a moment.")
  else if isinstance e AuthenticationError then
    error_result
      (lit "I'm temporarily unavailable due to a configuration issue. Please contact support.")
      (lit "AuthenticationError") (lit "Invalid OpenAI API key")
      (lit "Service configuration error. Please contact support.")
  else if isinstance e APIConnectionError then
    error_result
      (lit "I'm having trouble connecting to my AI services. Please try again in a moment.")
      (lit "ConnectionError") (lit "Failed to connect to OpenAI API")
      (lit "Connection error. Please try again shortly.")
  else if isinstance e APIError then
    if bool_decide (status_code e = Some 503) then
      error_result
        (lit "I'm temporarily unavailable. Please try again shortly.")
        (lit "ServiceUnavailable") (lit "OpenAI service temporarily unavailable")
        (lit "Service temporarily unavailable. Please try again in a few minutes.")
    else
      error_result
        (lit "I encountered an error processing your request. Please try again or rephrase your message.")
        (lit "APIError") (lit "OpenAI API error: " ++ text e)
        (lit "An error occurred. Please try again.")
  else if isinstance e OpenAIError then
    error_result
      (lit "I encountered an unexpected error. Please try again.")
      (lit "OpenAIError") (lit "OpenAI error: " ++ text e)
      (lit "An unexpected error occurred. Please try again.")
  else if isinstance e Exception then
    error_result
      (lit "I encountered an unexpected error. Please try again.")
      (lit "UnexpectedError") (lit "Unexpected error: " ++ text e)
      (lit "An unexpected error occurred. Please try again.")
  else Propagates e.

(** [response.choices[0]] on an empty list. *)
Definition IndexError : Raised :=
  mkRaised [Exception] None (lit "list index out of range").

(** The arguments of [self.client.chat.completions.create(...)]. *)
Definition build_request (orch : AgentOrchestrator) (message : str)
    (conversation_history : option (list ChatMessage))
    (tools : option (list str)) : Request :=
  let conversation_history := default [] conversation_history in
  let messages := format_messages orch conversation_history message in
  let tools_given :=
    match tools with Some ts => truthy ts | None => false end in
  mkRequest (model orch) messages
    (if tools_given then tools else None)
    (if tools_given then Some (lit "auto") else None).

Definition process_message (orch : AgentOrchestrator)
    (engine : Request -> EngineOutcome) (user_id : str) (message : str)
    (conversation_history : option (list ChatMessage))
    (tools : option (list str)) : Outcome :=
  let request := build_request orch message conversation_history tools in
  match engine request with
  | Raises e => handle_exception e
  | Completed [] => handle_exception IndexError
  | Completed (choice :: _) =>
      let finish_reason := choice_finish_reason choice in
      let requested :=
        match choice_tool_calls choice with
        | Some tcs => truthy tcs
        | None => false
        end in
      if bool_decide (finish_reason = lit "tool_calls") && requested
      then Returns (mkAgentResult finish_reason
                      (Some (default [] (choice_content choice)))
                      (choice_tool_calls choice) None)
      else Returns (mkAgentResult finish_reason (choice_content choice)
                      None None)
  end.

(** [sum(len(msg["content"]) for msg in messages)] *)
Definition total_chars (msgs : list ChatMessage) : Z :=
  foldr (fun msg acc => len (content msg) + acc) 0 msgs.

(** The loop of [truncate_history]; leaving the match is the [break]. *)
Fixpoint truncate_history_loop (max_chars : Z) (pending : list ChatMessage)
    (truncated : list ChatMessage) (char_count : Z) : list ChatMessage :=
  match pending with
  | [] => truncated
  | msg :: older =>
      let msg_chars := len (content msg) in
      if max_chars <? char_count + msg_chars then truncated
      else truncate_history_loop max_chars older (msg :: truncated)
             (char_count + msg_chars)
  end.

(** [truncate_history(messages, max_tokens)]: the character-count
    safety net; [max_tokens] is used as given, zero included. *)
Definition truncate_history (msgs : list ChatMessage) (max_tokens : Z)
    : list ChatMessage :=
  let max_chars := max_tokens * 4 in
  if total_chars msgs <=? max_chars then msgs
  else truncate_history_loop max_chars (rev msgs) [] 0.

End orchestrator.

(** ** Chat route (app/routes/chat.py) *)

Module chat.

Record ChatRequest := mkChatRequest {
  message : str;
  conversation_id : option Z
}.

(** An entry of [tool_results]: [{"tool", "result"}] or [{"tool", "error"}]. *)
Inductive ToolResultEntry :=
| ToolReturned (tool : str) (result : ToolResult)
| ToolFailed (tool : str) (error : str).

Record ChatResponse := mkChatResponse {
  resp_conversation_id : Z;
  resp_response : str;
  resp_tool_calls : option (list ToolResultEntry);
  resp_created_at : Z
}.

(** How the handler ends: with a response, with an [HTTPException], or
    with an exception nothing in the handler catches. *)
Inductive HTTPOutcome :=
| Respond (r : ChatResponse)
| HTTPException (status_code : Z) (detail : str)
| Unhandled.

(** A decoded argument payload: the keywords the five handlers know,
    with values of the types their schemas give, and whether any other
    key is present. *)
Record Kwargs := mkKwargs {
  kw_title : option str;
  kw_description : option str;
  kw_task_id : option Z;
  kw_completed : option bool;
  kw_filter : option str;
  kw_limit : option Z;
  kw_offset : option Z;
  kw_other : bool
}.

(** What surrounds one turn: the completion engine, the JSON codec, the
    text of the [TypeError] a handler call with wrong keywords raises,
    the instants the clock gives and the sessions that fail.  Tool
    calls are numbered by their position in the request. *)
Record Env := mkEnv {
  engine : orchestrator.Request -> orchestrator.EngineOutcome;
  json_loads : str -> str + Kwargs;
  json_dumps : list ToolResultEntry -> str;
  type_error : str -> str;
  conversation_instants : Z * Z;
  tool_instants : nat -> Z * Z;
  user_message_instants : Z * Z;
  assistant_message_instants : Z * Z;
  response_instant : Z;
  fault_create_conversation : bool;
  fault_tool : nat -> bool;
  fault_store_user : bool;
  fault_store_assistant : bool
}.

(** [get_available_tools()], by tool name. *)
Definition get_available_tools : list str :=
  [lit "add_task"; lit "list_tasks"; lit "complete_task";
   lit "delete_task"; lit "update_task"].

Definition names (s : string) (name : str) : bool := bool_decide (name = lit s).

(** One iteration of the loop over [agent_result["tool_calls"]]: the
    store afterwards and the entry appended to [tool_results], if any. *)
Definition execute_tool (env : Env) (user_id : str) (st : Store)
    (i : nat) (tool_call : ToolCall) : Store * option ToolResultEntry :=
  let name := tc_name tool_call in
  let raised := ToolFailed name (type_error env name) in
  match json_loads env (tc_arguments tool_call) with
  | inl e => (st, Some (ToolFailed name e))
  | inr kw =>
      let none_of (l : list bool) := negb (kw_other kw) && forallb negb l in
      if names "add_task" name then
        match kw_title kw with
        | Some title =>
            if none_of [bool_decide (is_Some (kw_task_id kw));
                        bool_decide (is_Some (kw_completed kw));
                        bool_decide (is_Some (kw_filter kw));
                        bool_decide (is_Some (kw_limit kw));
                        bool_decide (is_Some (kw_offset kw))]
            then
              let '(st', result) :=
                add_task.add_task_handler st user_id title (kw_description kw)
                  (tool_instants env i).1 (tool_instants env i).2
                  (fault_tool env i) in
              (st', Some (ToolReturned (lit "add_task") result))
            else (st, Some raised)
        | None => (st, Some raised)
        end
      else if names "list_tasks" name then
        if none_of [bool_decide (is_Some (kw_title kw));
                    bool_decide (is_Some (kw_description kw));
                    bool_decide (is_Some (kw_task_id kw));
                    bool_decide (is_Some (kw_completed kw))]
        then
          (st, Some (ToolReturned (lit "list_tasks")
                 (list_tasks.list_tasks_handler st user_id
                    (default (lit "all") (kw_filter kw))
                    (default 50 (kw_limit kw)) (default 0 (kw_offset kw))
                    (fault_tool env i))))
        else (st, Some raised)
      else if names "complete_task" name then
        match kw_task_id kw with
        | Some task_id =>
            if none_of [bool_decide (is_Some (kw_title kw));
                        bool_decide (is_Some (kw_description kw));
                        bool_decide (is_Some (kw_completed kw));
                        bool_decide (is_Some (kw_filter kw));
                        bool_decide (is_Some (kw_limit kw));
                        bool_decide (is_Some (kw_offset kw))]
            then
              let '(st', result) :=
                complete_task.complete_task_handler st user_id task_id
                  (tool_instants env i).1 (fault_tool env i) in
              (st', Some (ToolReturned (lit "complete_task") result))
            else (st, Some raised)
        | None => (st, Some raised)
        end
      else if names "delete_task" name then
        match kw_task_id kw with
        | Some task_id =>
            if none_of [bool_decide (is_Some (kw_title kw));
                        bool_decide (is_Some (kw_description kw));
                        bool_decide (is_Some (kw_completed kw));
                        bool_decide (is_Some (kw_filter kw));
                        bool_decide (is_Some (kw_limit kw));
                        bool_decide (is_Some (kw_offset kw))]
            then
              let '(st', result) :=
                delete_task.delete_task_handler st user_id task_id
                  (fault_tool env i) in
              (st', Some (ToolReturned (lit "delete_task") result))
            else (st, Some raised)
        | None => (st, Some raised)
        end
      else if names "update_task" name then
        match kw_task_id kw with
        | Some task_id =>
            if none_of [bool_decide (is_Some (kw_filter kw));
                        bool_decide (is_Some (kw_limit kw));
                        bool_decide (is_Some (kw_offset kw))]
            then
              let '(st', result) :=
                update_task.update_task_handler st user_id task_id
                  (kw_title kw) (kw_description kw) (kw_completed kw)
                  (tool_instants env i).1 (fault_tool env i) in
              (st', Some (ToolReturned (lit "update_task") result))
            else (st, Some raised)
        | None => (st, Some raised)
        end
      else (st, None)
  end.

(** The loop itself, threading the store and [tool_results]. *)
Fixpoint execute_tools (env : Env) (user_id : str) (st : Store) (i : nat)
    (calls : list ToolCall) (tool_results : list ToolResultEntry)
    : Store * list ToolResultEntry :=
  match calls with
  | [] => (st, tool_results)
  | tool_call :: rest =>
      let '(st', entry) := execute_tool env user_id st i tool_call in
      execute_tools env user_id st' (S i) rest
        (match entry with
         | Some e => tool_results ++ [e]
         | None => tool_results
         end)
  end.

(** [str(e)] for the manager's [ValueError]s. *)
Definition detail_of (e : conversation_manager.Error) (conversation_id : Z) : str :=
  match e with
  | conversation_manager.ConversationNotFound =>
      lit "Conversation " ++ lit (pretty conversation_id) ++ lit " not found"
  | conversation_manager.UnauthorizedAccess =>
      lit "Unauthorized access to conversation " ++ lit (pretty conversation_id)
  | conversation_manager.InvalidRole => lit "Invalid role"
  | conversation_manager.InvalidContent =>
      lit "Message content must be between 1 and 10,000 characters"
  | conversation_manager.SessionError => lit "database error"
  end.

(** Step 1: the conversation given, or a new one. *)
Definition resolve_conversation (env : Env) (st : Store) (user_id : str)
    (request : ChatRequest) : Store * (HTTPOutcome + Z) :=
  let create :=
    match conversation_manager.create_conversation st user_id
            (conversation_instants env).1 (conversation_instants env).2
            (fault_create_conversation env) with
    | (st', inr id) => (st', inr id)
    | (st', inl _) => (st', inl Unhandled)
    end in
  match conversation_id request with
  | Some id =>
      if id =? 0 then create
      else
        match conversation_manager.get_conversation st id user_id with
        | inr _ => (st, inr id)
        | inl e => (st, inl (HTTPException 404 (detail_of e id)))
        end
  | None => create
  end.

(** Step 6: the reply of the first completion, or of a second one over
    the tool results when tools ran and the first gave no text. *)
Definition final_reply (env : Env) (orch : orchestrator.AgentOrchestrator)
    (user_id : str) (request : ChatRequest) (history : list ChatMessage)
    (agent_result : orchestrator.AgentResult)
    (tool_results : list ToolResultEntry) : HTTPOutcome + option str :=
  let final_response := orchestrator.response agent_result in
  if truthy tool_results && negb (truthy (default [] final_response)) then
    let tool_messages :=
      history ++
      [mkChatMessage (lit "user") (message request) None;
       mkChatMessage (lit "assistant") []
         (Some (default [] (orchestrator.result_tool_calls agent_result)));
       mkChatMessage (lit "tool") (json_dumps env tool_results) None] in
    match orchestrator.process_message orch (engine env) user_id []
            (Some tool_messages) None with
    | orchestrator.Returns final_result =>
        inr (orchestrator.response final_result)
    | orchestrator.Propagates e =>
        if orchestrator.isinstance e orchestrator.Exception
        then inr (Some (lit "I've completed the task."))
        else inl Unhandled
    end
  else inr final_response.

(** Step 7: the two [store_message] calls under one [try]; the second
    is skipped when the first raises, and whatever is raised is only
    logged. *)
Definition store_turn (env : Env) (st : Store) (conversation_id : Z)
    (user_id : str) (request : ChatRequest) (final_response : option str)
    : Store :=
  match conversation_manager.store_message st conversation_id user_id
          (lit "user") (Some (message request))
          (user_message_instants env).1 (user_message_instants env).2
          (fault_store_user env) with
  | (st1, inr _) =>
      (conversation_manager.store_message st1 conversation_id user_id
         (lit "assistant") final_response
         (assistant_message_instants env).1 (assistant_message_instants env).2
         (fault_store_assistant env)).1
  | (st1, inl _) => st1
  end.

(** Step 8: [ChatResponse(...)], whose [response: str] field refuses
    [None]. *)
Definition respond (env : Env) (conversation_id : Z)
    (final_response : option str) (tool_results : list ToolResultEntry)
    : HTTPOutcome :=
  match final_response with
  | Some reply =>
      Respond (mkChatResponse conversation_id reply
                 (if truthy tool_results then Some tool_results else None)
                 (response_instant env))
  | None => Unhandled
  end.

Definition chat (env : Env) (cm : conversation_manager.ConversationManager)
    (orch : orchestrator.AgentOrchestrator) (st : Store)
    (user_id : str) (request : ChatRequest) (current_user_id : str)
    : Store * HTTPOutcome :=
  if bool_decide (user_id ≠ current_user_id)
  then (st, HTTPException 403 (lit "Unauthorized access"))
  else if negb (truthy (message request)) || negb (truthy (strip (message request)))
  then (st, HTTPException 400 (lit "Message cannot be empty"))
  else if 10000 <? len (message request)
  then (st, HTTPException 400 (lit "Message must be 10,000 characters or less"))
  else
    match resolve_conversation env st user_id request with
    | (st1, inl out) => (st1, out)
    | (st1, inr conversation_id) =>
        match conversation_manager.get_conversation_history cm st1
                conversation_id user_id None with
        | inl e => (st1, HTTPException 404 (detail_of e conversation_id))
        | inr history =>
            match orchestrator.process_message orch (engine env) user_id
                    (message request) (Some history)
                    (Some get_available_tools) with
            | orchestrator.Propagates e =>
                if orchestrator.isinstance e orchestrator.Exception
                then (st1, HTTPException 500 (lit "Failed to process message"))
                else (st1, Unhandled)
            | orchestrator.Returns agent_result =>
                let '(st2, tool_results) :=
                  execute_tools env user_id st1 0
                    (default [] (orchestrator.result_tool_calls agent_result))
                    [] in
                match final_reply env orch user_id request history
                        agent_result tool_results with
                | inl out => (st2, out)
                | inr final_response =>
                    (store_turn env st2 conversation_id user_id request
                       final_response,
                     respond env conversation_id final_response tool_results)
                end
            end
        end
    end.

End chat.

(** ** Conversation routes (app/routes/conversations.py) *)

Module conversations.

Record ConversationResponse := mkConversationResponse {
  cr_id : Z;
  cr_user_id : str;
  cr_created_at : Z;
  cr_updated_at : Z;
  cr_message_count : option Z
}.

Record MessageResponse := mkMessageResponse {
  mr_id : Z;
  mr_conversation_id : Z;
  mr_user_id : str;
  mr_role : str;
  mr_content : str;
  mr_created_at : Z
}.

(** How an endpoint ends: with its payload or with an [HTTPException]. *)
Inductive Reply (A : Type) :=
| Payload (a : A)
| HTTPException (status_code : Z) (detail : str).
Arguments Payload {A} a.
Arguments HTTPException {A} status_code detail.

Definition list_conversations (st : Store) (user_id current_user_id : str)
    (limit : Z) (sort_by order : str) : Reply (list ConversationResponse) :=
  if bool_decide (user_id ≠ current_user_id)
  then HTTPException 403 (lit "Unauthorized access")
  else
    Payload
      (map (fun conv : Z * Conversation =>
              mkConversationResponse conv.1 (conv_user_id conv.2)
                (conv_created_at conv.2) (conv_updated_at conv.2) None)
           (conversation_manager.list_conversations st user_id limit
              sort_by order)).

Definition message_response (msg : Message) : MessageResponse :=
  mkMessageResponse (msg_id msg) (msg_conversation_id msg) (msg_user_id msg)
    (msg_role msg) (msg_content msg) (msg_created_at msg).

(** The history the manager assembles is fetched and then left aside:
    the response is built from a query of the endpoint's own. *)
Definition get_conversation_messages
    (cm : conversation_manager.ConversationManager) (st : Store)
    (user_id : str) (conversation_id : Z) (current_user_id : str) (limit : Z)
    : Reply (list MessageResponse) :=
  if bool_decide (user_id ≠ current_user_id)
  then HTTPException 403 (lit "Unauthorized access")
  else
    match conversation_manager.get_conversation st conversation_id user_id with
    | inl e => HTTPException 404 (chat.detail_of e conversation_id)
    | inr _ =>
        match conversation_manager.get_conversation_history cm st
                conversation_id user_id (Some limit) with
        | inl e => HTTPException 404 (chat.detail_of e conversation_id)
        | inr messages_dict =>
            let db_messages :=
              take (Z.to_nat limit)
                   (conversation_manager.order_by_created_at_desc
                      (conversation_manager.messages_of st conversation_id)) in
            let db_messages := rev db_messages in
            Payload (map message_response db_messages)
        end
    end.

(** The payload is (deleted_conversation_id, deleted_message_count). *)
Definition delete_conversation (st : Store) (user_id : str)
    (conversation_id : Z) (current_user_id : str) (fault : bool)
    : Store * Reply (Z * Z) :=
  if bool_decide (user_id ≠ current_user_id)
  then (st, HTTPException 403 (lit "Unauthorized access"))
  else
    match conversation_manager.delete_conversation st conversation_id
            user_id fault with
    | (st', inr result) => (st', Payload result)
    | (st', inl conversation_manager.SessionError) =>
        (st', HTTPException 500 (lit "Failed to delete conversation"))
    | (st', inl e) => (st', HTTPException 404 (chat.detail_of e conversation_id))
    end.

End conversations.

(** ** Rate limiting (app/middleware/auth.py)

    Instants are microseconds, as [datetime] counts them; a
    [timedelta] is a number of microseconds. *)

Module auth.

Definition requests_per_hour : Z := 100.
Definition requests_per_minute : Z := 20.

(** [timedelta(hours=1)] and [timedelta(minutes=1)] *)
Definition one_hour : Z := 3600 * 1000000.
Definition one_minute : Z := 60 * 1000000.

(** The entry of one user in [rate_limit_store]:
    [{"hour": [...], "minute": [...]}]. *)
Record UserRequests := mkUserRequests {
  hour : list Z;
  minute : list Z
}.

(** [clean_old_requests]; [now] is the instant its own [utcnow()]
    reads. *)
Definition clean_old_requests (requests : list Z) (window : Z) (now : Z)
    : list Z :=
  let cutoff := now - window in
  List.filter (fun ts => cutoff <? ts) requests.

(** [min(l)] of a list; [None] stands for the [ValueError] on an empty
    one. *)
Definition py_min (l : list Z) : option Z :=
  match l with
  | [] => None
  | x :: xs => Some (foldr Z.min x xs)
  end.

(** The [detail] of the 429 response. *)
Record RateLimitDetail := mkRateLimitDetail {
  rl_error : str;
  rl_message : str;
  rl_retry_after : Z;
  rl_limit : Z;
  rl_window : str
}.

Inductive Outcome :=
| Allowed (user_id : str)
| TooManyRequests (detail : RateLimitDetail)
| Raised.

(** [int(delta.total_seconds())] for a [timedelta] of [delta]
    microseconds: the whole seconds, rounded towards zero. *)
Definition whole_seconds (delta : Z) : Z := Z.quot delta 1000000.

(** [check_rate_limit].  [now] is the instant read first; [now_hour]
    and [now_minute] are those the two calls of [clean_old_requests]
    read.  Looking up [rate_limit_store[user_id]] creates the entry of
    a user not seen before, and the cleaned lists are written back
    before any limit is checked. *)
Definition check_rate_limit (store : gmap str UserRequests) (user_id : str)
    (now now_hour now_minute : Z) : gmap str UserRequests * Outcome :=
  let user_requests := default (mkUserRequests [] []) (store !! user_id) in
  let hours := clean_old_requests (hour user_requests) one_hour now_hour in
  let minutes := clean_old_requests (minute user_requests) one_minute now_minute in
  let cleaned := <[user_id := mkUserRequests hours minutes]> store in
  let hourly_count := len hours in
  if requests_per_hour <=? hourly_count then
    match py_min hours with
    | None => (cleaned, Raised)
    | Some oldest_request =>
        (cleaned,
         TooManyRequests
           (mkRateLimitDetail (lit "RateLimitExceeded")
              (lit "Too many requests. You can make up to 100 requests per hour.")
              (whole_seconds (oldest_request + one_hour - now))
              requests_per_hour (lit "hour")))
    end
  else
    let minute_count := len minutes in
    if requests_per_minute <=? minute_count then
      match py_min minutes with
      | None => (cleaned, Raised)
      | Some oldest_request =>
          (cleaned,
           TooManyRequests
             (mkRateLimitDetail (lit "RateLimitExceeded")
                (lit "Too many requests. You can make up to 20 requests per minute.")
                (whole_seconds (oldest_request + one_minute - now))
                requests_per_minute (lit "minute")))
      end
    else
      (<[user_id := mkUserRequests (hours ++ [now]) (minutes ++ [now])]> store,
       Allowed user_id).

(** A run of requests, each with its user and the three instants its
    check reads, from the first to the last. *)
Fixpoint serve (store : gmap str UserRequests)
    (requests : list (str * (Z * Z * Z))) : gmap str UserRequests :=
  match requests with
  | [] => store
  | (user_id, (now, now_hour, now_minute)) :: rest =>
      serve (check_rate_limit store user_id now now_hour now_minute).1 rest
  end.

(** The [detail] dict of the 429 exception, and the exception. *)
Definition detail_dict (d : RateLimitDetail) : gmap str error_handler.Value :=
  <[lit "error" := error_handler.VStr (rl_error d)]>
    (<[lit "message" := error_handler.VStr (rl_message d)]>
       (<[lit "retry_after" := error_handler.VInt (rl_retry_after d)]>
          (<[lit "limit" := error_handler.VInt (rl_limit d)]>
             (<[lit "window" := error_handler.VStr (rl_window d)]> ∅)))).

Definition too_many_requests (d : RateLimitDetail)
    (headers : option (option (gmap str str))) : error_handler.HTTPException :=
  error_handler.mkHTTPException 429 (error_handler.DDict (detail_dict d)) headers.

End auth.

(** ** Escaping as the specification words it, and sample data *)

(** The spec's sanitizing, character by character: a null byte is
    dropped and each HTML special character becomes its entity. *)
Definition escape_char (c : N) : str :=
  if (c =? 0)%N then []
  else if (c =? 38)%N then lit "&amp;"
  else if (c =? 60)%N then lit "&lt;"
  else if (c =? 62)%N then lit "&gt;"
  else if (c =? 34)%N then lit "&quot;"
  else if (c =? 39)%N then lit "&#x27;"
  else [c].

Definition html_escape (text : str) : str := flat_map escape_char text.

(** The five characters [sanitize_input] rewrites. *)
Definition html_special (c : N) : bool :=
  ((c =? 38) || (c =? 60) || (c =? 62) || (c =? 34) || (c =? 39))%N.

(** User u1 owns conversation 1 and task 1; nothing is logged yet. *)
Definition sample_store : Store :=
  mkStore {[ 1 := mkConversation (lit "u1") 100 100 ]} []
          {[ 1 := mkTask (lit "u1") (lit "Buy milk") None false 100 100 ]}
          2 1 2.

(** Conversation 1 of u1 with two logged messages of 10,000 characters
    each, the longest [store_message] accepts. *)
Definition long_history_store : Store :=
  mkStore {[ 1 := mkConversation (lit "u1") 100 102 ]}
          [mkMessage 1 1 (lit "u1") (lit "user") (repeat 97%N (Z.to_nat 10000)) 101;
           mkMessage 2 1 (lit "u1") (lit "assistant") (repeat 98%N (Z.to_nat 10000)) 102]
          ∅ 2 3 1.

(** The conversation side of two stores is the same: conversations,
    message log and message sequence. *)
Definition same_log (st st' : Store) : Prop :=
  conversations st' = conversations st /\
  messages st' = messages st /\
  next_message_id st' = next_message_id st.


(** A turn in which nothing fails and the engine behaves as given. *)
Definition quiet_env (engine : orchestrator.Request -> orchestrator.EngineOutcome)
    : chat.Env :=
  chat.mkEnv engine (fun _ => inl []) (fun _ => []) (fun _ => [])
    (150, 150) (fun _ => (160, 160)) (170, 171) (180, 181) 190
    false (fun _ => false) false false.

(** An engine that stops with an empty text. *)
Definition silent_engine (_ : orchestrator.Request) : orchestrator.EngineOutcome :=
  orchestrator.Completed [orchestrator.mkChoice (lit "stop") (Some []) None].

(** A manager whose token count of a text is its length: one token per
    character. *)
Definition char_counting : conversation_manager.ConversationManager :=
  conversation_manager.mkManager 20 4000 (Some (map Z.of_N)).

(** Ids come from the sequences: every row's id is positive and below
    the next id of its table, and the message log carries increasing
    ids. *)
Definition fresh_ids (st : Store) : Prop :=
  (1 <= next_task_id st /\
   forall k, is_Some (tasks st !! k) -> 1 <= k < next_task_id st) /\
  (1 <= next_conversation_id st /\
   forall k, is_Some (conversations st !! k) -> 1 <= k < next_conversation_id st) /\
  (1 <= next_message_id st /\
   Forall (fun m => 1 <= msg_id m < next_message_id st) (messages st) /\
   StronglySorted Z.lt (map msg_id (messages st))).

(** What users other than [uid] own in [st] is found unchanged in
    [st']: their tasks, their conversations and the logs of these. *)
Definition others_kept (uid : str) (st st' : Store) : Prop :=
  (forall k t, tasks st !! k = Some t -> task_user_id t <> uid ->
     tasks st' !! k = Some t) /\
  (forall id c, conversations st !! id = Some c -> conv_user_id c <> uid ->
     conversations st' !! id = Some c /\
     conversation_manager.messages_of st' id
     = conversation_manager.messages_of st id).

(** * Properties *)

(** ** Token-budget truncation *)

Section truncation.

Import conversation_manager.

Variable cm : ConversationManager.

Lemma len_nonneg {A} (s : list A) : 0 <= len s.
Proof. unfold len. lia. Qed.

Lemma count_tokens_nonneg (t : str) : 0 <= count_tokens cm t.
Proof.
  unfold count_tokens. destruct (tokenizer cm) as [encode|].
  - apply len_nonneg.
  - apply Z.div_pos; [apply len_nonneg | lia].
Qed.

Lemma total_tokens_nonneg (msgs : list ChatMessage) : 0 <= total_tokens cm msgs.
Proof.
  induction msgs as [|m msgs IH]; simpl; [lia|].
  pose proof (count_tokens_nonneg (content m)). lia.
Qed.

Lemma total_tokens_app (a b : list ChatMessage) :
  total_tokens cm (a ++ b) = total_tokens cm a + total_tokens cm b.
Proof. induction a as [|m a IH]; simpl; [lia | rewrite IH; lia]. Qed.

(** The loop keeps a prefix [kept] of the reversed list and stops at
    the first entry of [dropped], which is the one that overflows. *)
Lemma truncate_loop_spec (max_tokens : Z) (pending truncated : list ChatMessage)
    (current : Z) :
  current = total_tokens cm truncated ->
  exists kept dropped,
    pending = kept ++ dropped /\
    truncate_loop cm max_tokens pending truncated current = rev kept ++ truncated /\
    (current <= max_tokens \/ kept <> [] ->
     total_tokens cm (rev kept ++ truncated) <= max_tokens) /\
    match dropped with
    | [] => True
    | m :: _ =>
        max_tokens
        < count_tokens cm (content m) + total_tokens cm (rev kept ++ truncated)
    end.
Proof.
  revert truncated current.
  induction pending as [|msg older IH]; intros truncated current Hcur.
  - exists [], []. simpl. split; [done|]. split; [done|]. split; [|done].
    intros [?|?]; [lia|done].
  - simpl. destruct (Z.leb_spec (current + count_tokens cm (content msg)) max_tokens)
      as [Hfit|Hover].
    + destruct (IH (msg :: truncated) (current + count_tokens cm (content msg)))
        as (kept & dropped & Hsplit & Hres & Hsum & Hstop).
      { simpl. lia. }
      exists (msg :: kept), dropped. simpl.
      rewrite <- !app_assoc. simpl.
      split; [by rewrite Hsplit|]. split; [done|]. split; [|done].
      intros _. apply Hsum. by left.
    + exists [], (msg :: older). simpl.
      split; [done|]. split; [done|]. split; [|lia].
      intros [?|?]; [lia|done].
Qed.

Lemma truncate_loop_from_empty (max_tokens : Z) (msgs : list ChatMessage) :
  exists dropped kept,
    msgs = dropped ++ kept /\
    truncate_loop cm max_tokens (rev msgs) [] 0 = kept /\
    (0 <= max_tokens \/ kept <> [] -> total_tokens cm kept <= max_tokens) /\
    match rev dropped with
    | [] => True
    | m :: _ => max_tokens < count_tokens cm (content m) + total_tokens cm kept
    end.
Proof.
  destruct (truncate_loop_spec max_tokens (rev msgs) [] 0 eq_refl)
    as (kept & dropped & Hsplit & Hres & Hsum & Hstop).
  rewrite app_nil_r in Hres, Hsum, Hstop.
  exists (rev dropped), (rev kept). rewrite rev_involutive.
  split; [|split; [done|split; [|done]]].
  - rewrite <- rev_app_distr, <- Hsplit. by rewrite rev_involutive.
  - intros [?|Hne]; apply Hsum; [by left|right].
    intros ->. by apply Hne.
Qed.

End truncation.

(** A budget of [0] is falsy for [max_tokens or self.max_context_tokens]:
    it selects the manager's default, like an argument left out. *)
Lemma truncate_zero_budget_is_default (cm : conversation_manager.ConversationManager)
    (msgs : list ChatMessage) :
  conversation_manager.truncate_history_by_tokens cm msgs (Some 0)
  = conversation_manager.truncate_history_by_tokens cm msgs None.
Proof. reflexivity. Qed.

(** C1 (as amended).  For a nonzero budget [B], truncation returns the
    list unchanged when its summed estimates are at most [B]; in every
    case the result is a contiguous tail of the input; for a positive
    [B] its summed estimates are at most [B]; the walk stops at the
    first overflow, so the entry just before the kept tail is one that
    did not fit; the newest entry is kept when its own estimate is at
    most [B], and the result is empty when it is not. *)
Theorem truncate_history_by_tokens_contiguous_tail
    (cm : conversation_manager.ConversationManager)
    (msgs : list ChatMessage) (B : Z) :
  B <> 0 ->
  let r := conversation_manager.truncate_history_by_tokens cm msgs (Some B) in
  (conversation_manager.total_tokens cm msgs <= B -> r = msgs) /\
  r `suffix_of` msgs /\
  (0 < B -> conversation_manager.total_tokens cm r <= B) /\
  (forall older m, msgs = older ++ m :: r ->
     B < conversation_manager.count_tokens cm (content m)
         + conversation_manager.total_tokens cm r) /\
  (forall older newest, msgs = older ++ [newest] ->
     conversation_manager.count_tokens cm (content newest) <= B ->
     exists r', r = r' ++ [newest]) /\
  (forall older newest, msgs = older ++ [newest] ->
     B < conversation_manager.count_tokens cm (content newest) ->
     r = []).
Proof.
  intros HB r. subst r. unfold conversation_manager.truncate_history_by_tokens.
  simpl. destruct (Z.eqb_spec B 0) as [|_]; [done|].
  destruct (Z.leb_spec (conversation_manager.total_tokens cm msgs) B) as [Hfit|Hover].
  - (* within budget: the list itself *)
    split; [done|]. split; [done|]. split; [done|]. split; [|split].
    + intros older m Heq. apply (f_equal length) in Heq.
      rewrite length_app in Heq. simpl in Heq. lia.
    + intros older newest -> _. by exists older.
    + intros older newest -> Hbig. rewrite total_tokens_app in Hfit. simpl in Hfit.
      pose proof (total_tokens_nonneg cm older). lia.
  - destruct (truncate_loop_from_empty cm B msgs)
      as (dropped & kept & Hsplit & -> & Hsum & Hstop).
    split; [lia|]. split; [by exists dropped|].
    split; [intros; apply Hsum; left; lia|].
    split; [|split].
    + intros older m Heq. rewrite Hsplit in Heq.
      assert (Hd : dropped = older ++ [m]).
      { apply (app_inv_tail kept). rewrite <- app_assoc. exact Heq. }
      rewrite Hd, rev_app_distr in Hstop. exact Hstop.
    + intros older newest Heq Hsmall.
      destruct kept as [|k kept _] using rev_ind.
      * rewrite app_nil_r in Hsplit. subst dropped.
        rewrite Heq, rev_app_distr in Hstop. simpl in Hstop. lia.
      * exists kept. rewrite Hsplit, app_assoc in Heq.
        apply app_inj_tail in Heq as [_ ->]. done.
    + intros older newest Heq Hbig.
      destruct kept as [|k kept _] using rev_ind; [done|].
      rewrite Hsplit, app_assoc in Heq. apply app_inj_tail in Heq as [_ ->].
      assert (Hle : conversation_manager.total_tokens cm (kept ++ [newest]) <= B).
      { apply Hsum. right. by destruct kept. }
      rewrite total_tokens_app in Hle. simpl in Hle.
      pose proof (total_tokens_nonneg cm kept). lia.
Qed.

(** Three entries of two tokens each under a budget of four: the two
    newest are kept. *)
Lemma truncate_history_by_tokens_contiguous_tail_witness :
  let cm := conversation_manager.default_manager in
  let msgs := [mkChatMessage (lit "user") (lit "aaaaaaaa") None;
               mkChatMessage (lit "assistant") (lit "bbbbbbbb") None;
               mkChatMessage (lit "user") (lit "cccccccc") None] in
  4 <> 0 /\
  conversation_manager.truncate_history_by_tokens cm msgs (Some 4)
    `suffix_of` msgs /\
  conversation_manager.total_tokens cm
    (conversation_manager.truncate_history_by_tokens cm msgs (Some 4)) <= 4.
Proof.
  intros cm msgs. split; [lia|].
  destruct (truncate_history_by_tokens_contiguous_tail cm msgs 4 ltac:(lia))
    as (_ & Hsuffix & Hsum & _).
  split; [exact Hsuffix | apply Hsum; lia].
Defined.

(** C1, counterexample.  With budget [0] and one entry of one token
    (four characters, no tokenizer), the claim's sum exceeds the budget
    and the entry should be dropped; the code falls back to the default
    budget of 4000 and returns the list unchanged. *)
Lemma truncate_history_by_tokens_zero_budget_counterexample :
  let cm := conversation_manager.default_manager in
  let msgs := [mkChatMessage (lit "user") (lit "abcd") None] in
  conversation_manager.truncate_history_by_tokens cm msgs (Some 0) = msgs /\
  ~ (conversation_manager.total_tokens cm
       (conversation_manager.truncate_history_by_tokens cm msgs (Some 0)) <= 0).
Proof.
  intros cm msgs. split; [reflexivity|].
  assert (Heq : conversation_manager.total_tokens cm
            (conversation_manager.truncate_history_by_tokens cm msgs (Some 0)) = 1)
    by reflexivity.
  rewrite Heq. lia.
Qed.

(** ** The message log *)

Lemma truthy_len {A} (s : list A) : truthy s = true <-> 1 <= len s.
Proof. destruct s; unfold len; simpl; split; intros; try done; lia. Qed.

Lemma content_check_spec (s : str) :
  negb (truthy s) || (10000 <? len s) = false <-> 1 <= len s <= 10000.
Proof.
  rewrite orb_false_iff, negb_false_iff, truthy_len, Z.ltb_ge. tauto.
Qed.

Lemma role_check_spec (r : str) :
  bool_decide (r ∈ [lit "user"; lit "assistant"]) = true
  <-> r = lit "user" \/ r = lit "assistant".
Proof.
  rewrite bool_decide_eq_true, !elem_of_cons, elem_of_nil. tauto.
Qed.

(** C6.  [store_message] fails when the conversation is missing or
    owned by another user, when the role is neither user nor assistant,
    and when the content is empty or longer than 10,000 characters; a
    failure persists nothing; with every check passed and a session
    that commits it succeeds, and a success appends exactly one message
    and sets the conversation's [updated_at], in one step. *)
Theorem store_message_validates_then_appends
    (st : Store) (cid : Z) (uid role : str) (content : option str)
    (created now : Z) (fault : bool) (st' : Store)
    (res : conversation_manager.Error + Message) :
  conversation_manager.store_message st cid uid role content created now fault
  = (st', res) ->
  let owned := exists c, conversations st !! cid = Some c /\ conv_user_id c = uid in
  let role_ok := role = lit "user" \/ role = lit "assistant" in
  let content_ok := exists s, content = Some s /\ 1 <= len s <= 10000 in
  (conversations st !! cid = None ->
   res = inl conversation_manager.ConversationNotFound) /\
  (forall c, conversations st !! cid = Some c -> conv_user_id c <> uid ->
   res = inl conversation_manager.UnauthorizedAccess) /\
  (~ role_ok -> exists e, res = inl e) /\
  (owned -> ~ role_ok -> res = inl conversation_manager.InvalidRole) /\
  (~ content_ok -> exists e, res = inl e) /\
  (owned -> role_ok -> ~ content_ok ->
   res = inl conversation_manager.InvalidContent) /\
  (forall e, res = inl e -> st' = st) /\
  (owned -> role_ok -> content_ok -> fault = false -> exists m, res = inr m) /\
  (forall m, res = inr m ->
     messages st' = messages st ++ [m] /\
     msg_conversation_id m = cid /\ msg_user_id m = uid /\
     msg_role m = role /\ content = Some (msg_content m) /\
     msg_created_at m = created /\
     (exists c, conversations st !! cid = Some c /\
        conversations st'
        = <[cid := mkConversation (conv_user_id c) (conv_created_at c) now]>
            (conversations st)) /\
     tasks st' = tasks st).
Proof.
  intros Hrun owned role_ok content_ok. subst owned role_ok content_ok.
  unfold conversation_manager.store_message in Hrun.
  destruct (conversations st !! cid) as [c|] eqn:Hc.
  2:{ simplify_eq. naive_solver. }
  case_bool_decide as Howner.
  { simplify_eq. naive_solver. }
  destruct (bool_decide (role ∈ [lit "user"; lit "assistant"])) eqn:Hrole; simpl in Hrun.
  2:{ simplify_eq. assert (~ (role = lit "user" \/ role = lit "assistant")).
      { rewrite <- role_check_spec. congruence. }
      naive_solver. }
  apply role_check_spec in Hrole.
  destruct content as [s|].
  2:{ simplify_eq. naive_solver. }
  destruct (negb (truthy s) || (10000 <? len s)) eqn:Hcontent.
  { simplify_eq.
    assert (~ (1 <= len s <= 10000)).
    { rewrite <- content_check_spec. congruence. }
    naive_solver. }
  apply content_check_spec in Hcontent.
  destruct fault; simplify_eq; simpl; naive_solver.
Qed.

Lemma store_message_validates_then_appends_witness :
  let run :=
    conversation_manager.store_message sample_store 1 (lit "u1") (lit "user")
      (Some (lit "Hi")) 200 201 false in
  run = (run.1, run.2) /\ (forall e, run.2 = inl e -> run.1 = sample_store).
Proof.
  intros run. split; [apply surjective_pairing|].
  apply (store_message_validates_then_appends sample_store 1 (lit "u1")
           (lit "user") (Some (lit "Hi")) 200 201 false run.1 run.2).
  apply surjective_pairing.
Defined.

(** ** Task tools *)

Lemma select_task_owner (st : Store) (k : Z) (t : Task) :
  tasks st !! k = Some t -> select_task st k (task_user_id t) = Some t.
Proof. intros H. unfold select_task. rewrite H. by rewrite bool_decide_eq_true_2. Qed.

(** A row owned by someone else is as invisible as a missing one. *)
Lemma select_task_other_user (st : Store) (k : Z) (t : Task) (uid : str) :
  tasks st !! k = Some t -> task_user_id t <> uid -> select_task st k uid = None.
Proof. intros H Hne. unfold select_task. rewrite H. by rewrite bool_decide_eq_false_2. Qed.

Lemma select_task_missing (st : Store) (k : Z) (uid : str) :
  tasks st !! k = None -> select_task st k uid = None.
Proof. intros H. unfold select_task. by rewrite H. Qed.

Lemma select_task_Some (st : Store) (k : Z) (uid : str) (t : Task) :
  select_task st k uid = Some t -> tasks st !! k = Some t /\ task_user_id t = uid.
Proof.
  unfold select_task. destruct (tasks st !! k) as [t'|]; [|done].
  case_bool_decide; naive_solver.
Qed.

(** C7.  For a task the caller owns, [complete_task] succeeds and
    returns it with [completed = true], whatever its flag was; a second
    call succeeds again with [completed = true]; each call sets
    [updated_at] to the instant it reads. *)
Theorem complete_task_idempotent (st : Store) (uid : str) (k : Z) (t : Task)
    (now1 now2 : Z) :
  tasks st !! k = Some t -> task_user_id t = uid -> 1 <= k ->
  let first := complete_task.complete_task_handler st uid k now1 false in
  let second := complete_task.complete_task_handler first.1 uid k now2 false in
  let done_at now :=
    mkTask uid (task_title t) (task_description t) true (task_created_at t) now in
  first.2 = TaskResult (task_view k (done_at now1)) /\
  tasks first.1 !! k = Some (done_at now1) /\
  second.2 = TaskResult (task_view k (done_at now2)) /\
  tasks second.1 !! k = Some (done_at now2) /\
  tv_completed (task_view k (done_at now1)) = true /\
  tv_completed (task_view k (done_at now2)) = true /\
  tv_updated_at (task_view k (done_at now1)) = now1 /\
  tv_updated_at (task_view k (done_at now2)) = now2.
Proof.
  intros Hk Hown Hpos first second done_at.
  assert (Hfirst : first = (set_tasks st (<[k := done_at now1]> (tasks st)),
                            TaskResult (task_view k (done_at now1)))).
  { subst first done_at. unfold complete_task.complete_task_handler,
      complete_task.validate_task_id.
    destruct (Z.ltb_spec k 1); [lia|].
    rewrite <- Hown, (select_task_owner _ _ _ Hk). done. }
  assert (Hrow : tasks first.1 !! k = Some (done_at now1)).
  { rewrite Hfirst. simpl. apply lookup_insert_eq. }
  assert (Hsecond : second = (set_tasks first.1 (<[k := done_at now2]> (tasks first.1)),
                              TaskResult (task_view k (done_at now2)))).
  { subst second. unfold complete_task.complete_task_handler,
      complete_task.validate_task_id.
    destruct (Z.ltb_spec k 1); [lia|].
    replace uid with (task_user_id (done_at now1)) at 1 by done.
    rewrite (select_task_owner _ _ _ Hrow). done. }
  rewrite Hsecond, Hfirst. simpl.
  rewrite !lookup_insert_eq. done.
Qed.

Lemma complete_task_idempotent_witness :
  let first :=
    complete_task.complete_task_handler sample_store (lit "u1") 1 200 false in
  let second :=
    complete_task.complete_task_handler first.1 (lit "u1") 1 300 false in
  exists v1 v2, first.2 = TaskResult v1 /\ second.2 = TaskResult v2 /\
    tv_completed v1 = true /\ tv_completed v2 = true.
Proof.
  intros first second.
  destruct (complete_task_idempotent sample_store (lit "u1") 1
              (mkTask (lit "u1") (lit "Buy milk") None false 100 100) 200 300)
    as (H1 & _ & H2 & _); [reflexivity | reflexivity | lia |].
  eexists _, _. split; [exact H1|]. split; [exact H2|]. split; reflexivity.
Defined.

(** With valid parameters, a task the caller owns and a session that
    commits, [update_task] succeeds. *)
Lemma update_task_succeeds (st : Store) (uid : str) (k : Z) (t : Task)
    (title description : option str) (completed : option bool) (now : Z) :
  update_task.validate_update_params k title description completed = (true, None) ->
  tasks st !! k = Some t -> task_user_id t = uid ->
  exists st' v,
    update_task.update_task_handler st uid k title description completed now false
    = (st', TaskResult v).
Proof.
  intros Hvalid Hk Hown. unfold update_task.update_task_handler.
  rewrite Hvalid, <- Hown, (select_task_owner _ _ _ Hk). eauto.
Qed.

(** C8.  A successful [update_task] changes only the fields that were
    provided: a field left out keeps its stored value, a field given
    takes the (sanitized) new value; the task keeps its id, owner and
    [created_at]; [updated_at] is set to the instant read; no other row
    and no other table changes. *)
Theorem update_task_frame (st : Store) (uid : str) (k : Z)
    (title description : option str) (completed : option bool)
    (now : Z) (fault : bool) (st' : Store) (v : TaskView) :
  update_task.update_task_handler st uid k title description completed now fault
  = (st', TaskResult v) ->
  exists t t',
    tasks st !! k = Some t /\ task_user_id t = uid /\
    tasks st' !! k = Some t' /\ v = task_view k t' /\
    (title = None -> task_title t' = task_title t) /\
    (description = None -> task_description t' = task_description t) /\
    (completed = None -> task_completed t' = task_completed t) /\
    (forall x, title = Some x -> task_title t' = update_task.sanitize_input x) /\
    (forall x, description = Some x ->
       task_description t' = Some (update_task.sanitize_input x)) /\
    (forall b, completed = Some b -> task_completed t' = b) /\
    tv_id v = k /\ task_user_id t' = task_user_id t /\
    task_created_at t' = task_created_at t /\ task_updated_at t' = now /\
    (forall j, j <> k -> tasks st' !! j = tasks st !! j) /\
    conversations st' = conversations st /\ messages st' = messages st.
Proof.
  unfold update_task.update_task_handler.
  destruct (update_task.validate_update_params k title description completed)
    as [[|] msg]; [|discriminate].
  destruct fault; [discriminate|].
  destruct (select_task st k uid) as [t|] eqn:Hsel; [|discriminate].
  apply select_task_Some in Hsel as [Hk Hown].
  intros [= <- <-]. eexists t, _. simpl.
  split; [exact Hk|]. split; [exact Hown|].
  split; [apply lookup_insert_eq|]. split; [reflexivity|].
  repeat split.
  - by intros ->.
  - by intros ->.
  - by intros ->.
  - by intros x ->.
  - by intros x ->.
  - by intros b ->.
  - intros j Hj. by apply lookup_insert_ne.
Qed.

(** Updating only the description of the sample task. *)
Lemma update_task_frame_witness :
  let run :=
    update_task.update_task_handler sample_store (lit "u1") 1 None
      (Some (lit "2 litres")) None 200 false in
  exists v, run.2 = TaskResult v /\
    tv_title v = lit "Buy milk" /\ tv_completed v = false /\
    tv_description v = Some (lit "2 litres") /\ tv_updated_at v = 200.
Proof.
  intros run.
  destruct (update_task_frame sample_store (lit "u1") 1 None
              (Some (lit "2 litres")) None 200 false run.1
              (mkTaskView 1 (lit "u1") (lit "Buy milk") (Some (lit "2 litres"))
                 false 100 200))
    as (t & t' & Ht & _ & _ & Hv & Htitle & _ & Hdone & _ & Hdesc & _);
    [reflexivity|].
  eexists. split; [reflexivity|]. repeat split.
Defined.

(** ** Ownership isolation *)

(** The parameter check of [update_task] looks at the id only to see
    that it is positive. *)
Lemma validate_update_params_id (k j : Z) (title description : option str)
    (completed : option bool) :
  1 <= k -> 1 <= j ->
  update_task.validate_update_params k title description completed
  = update_task.validate_update_params j title description completed.
Proof.
  intros Hk Hj. unfold update_task.validate_update_params.
  destruct (Z.ltb_spec k 1); [lia|]. destruct (Z.ltb_spec j 1); [lia|]. done.
Qed.

(** C2 (as amended).  Let task [k] belong to user [A], let [B] be
    another user and [j] an id no task has.  Called with [B] and [k],
    [complete_task] and [delete_task] answer NotFoundError, and so does
    [update_task] whenever its parameters pass validation; whatever
    the parameters and the state of the session, each of the three
    answers exactly as it does for the missing id [j], and the store is
    left as it was. *)
Theorem ownership_isolation_hides_existence (st : Store) (A B : str)
    (k j : Z) (t : Task) :
  A <> B -> tasks st !! k = Some t -> task_user_id t = A -> 1 <= k ->
  tasks st !! j = None -> 1 <= j ->
  let not_found :=
    Failure (lit "NotFoundError") (lit "Task not found or does not belong to user") in
  (forall now, complete_task.complete_task_handler st B k now false = (st, not_found)) /\
  delete_task.delete_task_handler st B k false = (st, not_found) /\
  (forall title description completed now,
     update_task.validate_update_params k title description completed = (true, None) ->
     update_task.update_task_handler st B k title description completed now false
     = (st, not_found)) /\
  (forall now fault,
     complete_task.complete_task_handler st B k now fault
     = (st, (complete_task.complete_task_handler st B j now fault).2)) /\
  (forall fault,
     delete_task.delete_task_handler st B k fault
     = (st, (delete_task.delete_task_handler st B j fault).2)) /\
  (forall title description completed now fault,
     update_task.update_task_handler st B k title description completed now fault
     = (st, (update_task.update_task_handler st B j title description completed
               now fault).2)).
Proof.
  intros Hne Hk Hown Hkpos Hj Hjpos not_found.
  assert (Hhidden : select_task st k B = None).
  { apply (select_task_other_user st k t); [done|congruence]. }
  assert (Hmissing : select_task st j B = None) by by apply select_task_missing.
  unfold complete_task.complete_task_handler, complete_task.validate_task_id,
    delete_task.delete_task_handler, delete_task.validate_task_id,
    update_task.update_task_handler.
  destruct (Z.ltb_spec k 1); [lia|]. destruct (Z.ltb_spec j 1); [lia|].
  rewrite Hhidden, Hmissing.
  split; [done|]. split; [done|]. split; [by intros ???? ->|].
  split; [by intros ? []|]. split; [by intros []|].
  intros title description completed now fault.
  rewrite (validate_update_params_id k j) by done.
  destruct (update_task.validate_update_params j title description completed)
    as [[|] msg]; [|done].
  by destruct fault.
Qed.

(** User u2 reaches for u1's task 1; id 7 is free. *)
Lemma ownership_isolation_hides_existence_witness :
  complete_task.complete_task_handler sample_store (lit "u2") 1 200 false
  = (sample_store,
     Failure (lit "NotFoundError") (lit "Task not found or does not belong to user")) /\
  delete_task.delete_task_handler sample_store (lit "u2") 1 false
  = (sample_store,
     Failure (lit "NotFoundError") (lit "Task not found or does not belong to user")).
Proof.
  destruct (ownership_isolation_hides_existence sample_store (lit "u1") (lit "u2")
              1 7 (mkTask (lit "u1") (lit "Buy milk") None false 100 100))
    as (Hcomplete & Hdelete & _);
    [discriminate | reflexivity | reflexivity | lia | reflexivity | lia |].
  split; [apply Hcomplete | exact Hdelete].
Defined.

(** C2, counterexample.  [update_task] called by u2 on u1's task with
    no field to change answers ValidationError, not NotFoundError: the
    parameters are validated before the row is looked up. *)
Lemma update_task_other_user_no_fields_counterexample :
  tasks sample_store !! 1
  = Some (mkTask (lit "u1") (lit "Buy milk") None false 100 100) /\
  lit "u1" <> lit "u2" /\
  update_task.update_task_handler sample_store (lit "u2") 1 None None None 200 false
  = (sample_store,
     Failure (lit "ValidationError")
       (lit "At least one of title, description, or completed must be provided")) /\
  (forall msg,
     (update_task.update_task_handler sample_store (lit "u2") 1 None None None
        200 false).2
     <> Failure (lit "NotFoundError") msg).
Proof.
  split; [reflexivity|]. split; [discriminate|]. split; [reflexivity|].
  intros msg. discriminate.
Qed.

(** ** Sanitizing of task text *)

Lemma contains_elem_of (c : N) (s : str) : contains c s = true <-> c ∈ s.
Proof.
  unfold contains. rewrite existsb_exists, list_elem_of_In. split.
  - intros (x & Hin & Heq). apply N.eqb_eq in Heq. by subst x.
  - intros Hin. exists c. split; [done | apply N.eqb_refl].
Qed.

Lemma elem_of_rev {A} (c : A) (s : list A) : c ∈ rev s <-> c ∈ s.
Proof. rewrite !list_elem_of_In. symmetry. apply in_rev. Qed.

Lemma elem_of_lstrip (c : N) (s : str) : c ∈ lstrip s -> c ∈ s.
Proof.
  induction s as [|x s IH]; simpl; [done|].
  destruct (isspace x); [|done]. intros H. right. by apply IH.
Qed.

Lemma elem_of_strip (c : N) (s : str) : c ∈ strip s -> c ∈ s.
Proof.
  unfold strip, rstrip. rewrite elem_of_rev. intros H.
  apply elem_of_lstrip in H. rewrite elem_of_rev in H. by apply elem_of_lstrip.
Qed.

Lemma lstrip_keeps (c : N) (s : str) :
  c ∈ s -> isspace c = false -> c ∈ lstrip s.
Proof.
  intros Hin Hc. induction s as [|x s IH]; simpl; [done|].
  destruct (isspace x) eqn:Hx; [|done].
  apply elem_of_cons in Hin as [->|Hin]; [congruence | by apply IH].
Qed.

(** [strip] only removes whitespace. *)
Lemma strip_keeps (c : N) (s : str) :
  c ∈ s -> isspace c = false -> c ∈ strip s.
Proof.
  intros Hin Hc. unfold strip, rstrip. rewrite elem_of_rev.
  apply lstrip_keeps; [|done]. rewrite elem_of_rev. by apply lstrip_keeps.
Qed.

Lemma truthy_elem_of {A} (c : A) (s : list A) : c ∈ s -> truthy s = true.
Proof. by destruct 1. Qed.

Lemma html_special_not_space (c : N) : html_special c = true -> isspace c = false.
Proof.
  unfold html_special. rewrite !orb_true_iff, !N.eqb_eq.
  intros [[[[->| ->]| ->]| ->]| ->]; reflexivity.
Qed.

Lemma replace_app (c : N) (new a b : str) :
  replace c new (a ++ b) = replace c new a ++ replace c new b.
Proof. unfold replace. apply flat_map_app. Qed.

Lemma sanitize_input_app (a b : str) :
  error_handler.sanitize_input (a ++ b)
  = error_handler.sanitize_input a ++ error_handler.sanitize_input b.
Proof. unfold error_handler.sanitize_input. by rewrite !replace_app. Qed.

Lemma sanitize_input_char (c : N) :
  error_handler.sanitize_input [c] = escape_char c.
Proof.
  unfold error_handler.sanitize_input, escape_char.
  destruct (N.eqb_spec c 0) as [->|H0]; [reflexivity|].
  destruct (N.eqb_spec c 38) as [->|H38]; [reflexivity|].
  destruct (N.eqb_spec c 60) as [->|H60]; [reflexivity|].
  destruct (N.eqb_spec c 62) as [->|H62]; [reflexivity|].
  destruct (N.eqb_spec c 34) as [->|H34]; [reflexivity|].
  destruct (N.eqb_spec c 39) as [->|H39]; [reflexivity|].
  unfold replace. simpl.
  repeat match goal with
  | |- context [N.eqb c ?k] =>
      let Hk := fresh in
      destruct (N.eqb_spec c k) as [Hk|Hk]; [by rewrite Hk in * | simpl]
  end.
  reflexivity.
Qed.

(** The six successive [replace] calls of [sanitize_input] are the
    character-by-character escaping: the text of an entity is never
    rewritten again. *)
Lemma sanitize_input_html_escape (text : str) :
  error_handler.sanitize_input text = html_escape text.
Proof.
  induction text as [|c text IH]; [reflexivity|].
  change (c :: text) with ([c] ++ text).
  rewrite sanitize_input_app, IH, sanitize_input_char. reflexivity.
Qed.

(** Escaped text holds none of the characters that open a tag or close
    an attribute. *)
Lemma html_escape_no_markup (text : str) (c : N) :
  c ∈ html_escape text -> c <> 0%N /\ c <> 60%N /\ c <> 62%N /\ c <> 34%N /\ c <> 39%N.
Proof.
  unfold html_escape. rewrite list_elem_of_In, in_flat_map.
  intros (x & _ & Hin). unfold escape_char in Hin.
  repeat match type of Hin with
  | context [N.eqb x ?k] => destruct (N.eqb_spec x k)
  end;
  cbv in Hin; intuition (subst; try discriminate; try done).
Qed.

(** C10.  [add_task] checks the trimmed title's length and null bytes
    before it escapes, so the 1-200 bound holds for the input and not
    for the stored value.  A title holding an HTML special character,
    at most 200 characters long once trimmed and free of null bytes,
    passes validation and is stored escaped; the stored title can
    exceed 200 characters, a title of 200 ampersands being stored as
    1000 characters.  Whenever a task is created, whatever the
    description and the session, the trimmed title had between 1 and
    200 characters and no null byte, and the stored title is its
    escaped form.  A title of more than 200 characters once trimmed is
    refused, and so is one with a null byte, which the escaping would
    have removed; both leave the store as it was. *)
Theorem add_task_bounds_input_not_stored_title :
  (forall (st : Store) (uid title : str) (created updated : Z),
     (exists c, c ∈ title /\ html_special c = true) ->
     len (strip title) <= 200 ->
     contains 0%N (strip title) = false ->
     let run := add_task.add_task_handler st uid title None created updated false in
     let row := mkTask uid (html_escape (strip title)) None false created updated in
     run.2 = TaskResult (task_view (next_task_id st) row) /\
     tasks run.1 !! next_task_id st = Some row) /\
  (let title := repeat 38%N 200 in
   len title = 200 /\
   forall (st : Store) (uid : str) (created updated : Z),
     let run := add_task.add_task_handler st uid title None created updated false in
     exists row,
       run.2 = TaskResult (task_view (next_task_id st) row) /\
       tasks run.1 !! next_task_id st = Some row /\
       len (task_title row) = 1000) /\
  (forall (st : Store) (uid title : str) (description : option str)
          (created updated : Z) (fault : bool) (v : TaskView),
     let run :=
       add_task.add_task_handler st uid title description created updated fault in
     run.2 = TaskResult v ->
     1 <= len (strip title) <= 200 /\
     contains 0%N (strip title) = false /\
     tv_title v = html_escape (strip title) /\
     exists row,
       tasks run.1 !! next_task_id st = Some row /\
       task_title row = html_escape (strip title)) /\
  (forall (st : Store) (uid title : str) (description : option str)
          (created updated : Z) (fault : bool),
     200 < len (strip title) ->
     add_task.add_task_handler st uid title description created updated fault
     = (st, Failure (lit "ValidationError")
              (lit "Title must be between 1 and 200 characters"))) /\
  (forall (st : Store) (uid title : str) (description : option str)
          (created updated : Z) (fault : bool),
     1 <= len (strip title) <= 200 ->
     contains 0%N (strip title) = true ->
     add_task.add_task_handler st uid title description created updated fault
     = (st, Failure (lit "ValidationError")
              (lit "Title contains invalid characters"))).
Proof.
  assert (Hgeneral : forall (st : Store) (uid title : str) (created updated : Z),
     (exists c, c ∈ title /\ html_special c = true) ->
     len (strip title) <= 200 ->
     contains 0%N (strip title) = false ->
     let run := add_task.add_task_handler st uid title None created updated false in
     let row := mkTask uid (html_escape (strip title)) None false created updated in
     run.2 = TaskResult (task_view (next_task_id st) row) /\
     tasks run.1 !! next_task_id st = Some row).
  { intros st uid title created updated (c & Hin & Hspecial) Hlen Hnull run row.
    subst run row. unfold add_task.add_task_handler.
    pose proof (html_special_not_space c Hspecial) as Hspace.
    rewrite (truthy_elem_of c title Hin).
    rewrite (truthy_elem_of c (strip title) (strip_keeps c title Hin Hspace)).
    simpl. destruct (Z.ltb_spec 200 (len (strip title))); [lia|].
    rewrite Hnull, sanitize_input_html_escape. simpl.
    split; [reflexivity | apply lookup_insert_eq]. }
  assert (Hnonblank : forall title : str,
            1 <= len (strip title) ->
            truthy title = true /\ truthy (strip title) = true).
  { intros title Hlen. apply truthy_len in Hlen. split; [|done].
    destruct title; [done|done]. }
  split; [exact Hgeneral|]. split; [|split; [|split]].
  - intros title. split; [reflexivity|].
    intros st uid created updated run.
    destruct (Hgeneral st uid title created updated) as [Hres Hrow].
    + exists 38%N. split; [|reflexivity]. subst title. simpl. left.
    + subst title. vm_compute. discriminate.
    + reflexivity.
    + eexists. split; [exact Hres|]. split; [exact Hrow|].
      subst title. vm_compute. reflexivity.
  - intros st uid title description created updated fault v run. subst run.
    unfold add_task.add_task_handler.
    destruct (truthy title) eqn:Htitle; simpl; [|intros [=]].
    destruct (truthy (strip title)) eqn:Hstrip; simpl; [|intros [=]].
    destruct (Z.ltb_spec 200 (len (strip title))) as [Hlong|Hlen];
      simpl; [intros [=]|].
    destruct (contains 0%N (strip title)) eqn:Hnull; simpl; [intros [=]|].
    apply truthy_len in Hstrip.
    assert (Hcreated : forall d : option str,
      (if fault
       then (st, Failure (lit "DatabaseError") (lit "Failed to create task"))
       else
         (mkStore (conversations st) (messages st)
            (<[next_task_id st :=
                 mkTask uid (error_handler.sanitize_input (strip title)) d false
                   created updated]> (tasks st))
            (next_conversation_id st) (next_message_id st) (next_task_id st + 1),
          TaskResult
            (task_view (next_task_id st)
               (mkTask uid (error_handler.sanitize_input (strip title)) d false
                  created updated)))).2 = TaskResult v ->
      1 <= len (strip title) <= 200 /\ false = false /\
      tv_title v = html_escape (strip title) /\
      exists row,
        tasks
          (if fault
           then (st, Failure (lit "DatabaseError") (lit "Failed to create task"))
           else
             (mkStore (conversations st) (messages st)
                (<[next_task_id st :=
                     mkTask uid (error_handler.sanitize_input (strip title)) d
                       false created updated]> (tasks st))
                (next_conversation_id st) (next_message_id st)
                (next_task_id st + 1),
              TaskResult
                (task_view (next_task_id st)
                   (mkTask uid (error_handler.sanitize_input (strip title)) d
                      false created updated)))).1 !! next_task_id st = Some row /\
        task_title row = html_escape (strip title)).
    { intros d. destruct fault; simpl; [intros [=]|]. intros [= <-]. simpl.
      rewrite sanitize_input_html_escape.
      split; [lia|]. split; [done|]. split; [done|].
      eexists. split; [apply lookup_insert_eq | done]. }
    destruct description as [d|]; [|apply Hcreated].
    destruct (truthy d); [|apply Hcreated].
    destruct (1000 <? len (strip d)); simpl; [intros [=]|].
    destruct (contains 0%N (strip d)); simpl; [intros [=]|].
    apply Hcreated.
  - intros st uid title description created updated fault Hlong.
    destruct (Hnonblank title ltac:(lia)) as [Htitle Hstrip].
    unfold add_task.add_task_handler. rewrite Htitle, Hstrip. simpl.
    destruct (Z.ltb_spec 200 (len (strip title))); [done|lia].
  - intros st uid title description created updated fault Hlen Hnull.
    destruct (Hnonblank title ltac:(lia)) as [Htitle Hstrip].
    unfold add_task.add_task_handler. rewrite Htitle, Hstrip. simpl.
    destruct (Z.ltb_spec 200 (len (strip title))); [lia|]. by rewrite Hnull.
Qed.

(** The title of the tests, [<script>alert('XSS')</script>]. *)
Lemma add_task_bounds_input_not_stored_title_witness :
  let title := lit "<script>alert('XSS')</script>" in
  let run :=
    add_task.add_task_handler sample_store (lit "u1") title None 200 200 false in
  exists row, tasks run.1 !! 2 = Some row /\
    task_title row = lit "&lt;script&gt;alert(&#x27;XSS&#x27;)&lt;/script&gt;".
Proof.
  intros title run.
  destruct add_task_bounds_input_not_stored_title as [Hgeneral _].
  destruct (Hgeneral sample_store (lit "u1") title 200 200) as [_ Hrow].
  - exists 60%N. split; [|reflexivity]. subst title. left.
  - subst title. vm_compute. discriminate.
  - reflexivity.
  - eexists. split; [exact Hrow|]. reflexivity.
Defined.

(** ** Sanitizing on update *)

(** Creation refuses a title with a null byte. *)
Lemma add_task_null_byte_rejected (st : Store) (uid title : str)
    (description : option str) (created updated : Z) (fault : bool) :
  truthy (strip title) = true -> len (strip title) <= 200 ->
  contains 0%N (strip title) = true ->
  add_task.add_task_handler st uid title description created updated fault
  = (st, Failure (lit "ValidationError") (lit "Title contains invalid characters")).
Proof.
  intros Hstrip Hlen Hnull. unfold add_task.add_task_handler.
  assert (Htitle : truthy title = true).
  { destruct title; [done|done]. }
  rewrite Htitle, Hstrip. simpl.
  destruct (Z.ltb_spec 200 (len (strip title))); [lia|]. by rewrite Hnull.
Qed.

(** Creation refuses a description with a null byte as well. *)
Lemma add_task_description_null_byte_rejected (st : Store) (uid title d : str)
    (created updated : Z) (fault : bool) :
  truthy (strip title) = true -> len (strip title) <= 200 ->
  contains 0%N (strip title) = false ->
  truthy d = true -> len (strip d) <= 1000 -> contains 0%N (strip d) = true ->
  add_task.add_task_handler st uid title (Some d) created updated fault
  = (st, Failure (lit "ValidationError")
           (lit "Description contains invalid characters")).
Proof.
  intros Hstrip Hlen Hnull Hd Hdlen Hdnull. unfold add_task.add_task_handler.
  assert (Htitle : truthy title = true) by by destruct title.
  rewrite Htitle, Hstrip, Hnull, Hd. simpl.
  destruct (Z.ltb_spec 200 (len (strip title))); [lia|].
  destruct (Z.ltb_spec 1000 (len (strip d))); [lia|]. by rewrite Hdnull.
Qed.

(** The sanitizer of [update_task] leaves no null byte. *)
Lemma update_sanitize_input_strips_null (text : str) :
  contains 0%N (update_task.sanitize_input text) = false.
Proof.
  apply not_true_is_false. rewrite contains_elem_of.
  unfold update_task.sanitize_input. destruct text as [|c text]; simpl; [by inversion 1|].
  intros Hin. apply elem_of_strip in Hin.
  change (0%N ∈ replace 0%N [] (c :: text)) in Hin.
  unfold replace in Hin. rewrite list_elem_of_In, in_flat_map in Hin.
  destruct Hin as (x & _ & Hx). destruct (N.eqb_spec x 0); simpl in Hx; [done|].
  destruct Hx as [->|[]]. done.
Qed.

(** C4, the code at the failing input.  [update_task] stores the title
    [<script>alert(1)</script>] as it is, where [add_task] stores the
    same title escaped. *)
Theorem update_task_stores_markup_unescaped :
  let title := lit "<script>alert(1)</script>" in
  let updated :=
    update_task.update_task_handler sample_store (lit "u1") 1 (Some title)
      None None 200 false in
  let created :=
    add_task.add_task_handler sample_store (lit "u1") title None 200 200 false in
  task_title <$> tasks updated.1 !! 1 = Some title /\
  task_title <$> tasks created.1 !! 2
  = Some (lit "&lt;script&gt;alert(1)&lt;/script&gt;") /\
  update_task.sanitize_input title = title /\
  error_handler.sanitize_input title = lit "&lt;script&gt;alert(1)&lt;/script&gt;".
Proof. repeat split; reflexivity. Qed.

(** ** Degraded success of the orchestrator *)

(** C3.  When the engine call raises an exception, [process_message]
    returns normally: [finish_reason] is "error", [response] is one of
    the fixed apologies, and [error.type] classifies the failure by
    the first [except] clause that applies. *)
Theorem process_message_degrades_on_engine_failure
    (orch : orchestrator.AgentOrchestrator)
    (engine : orchestrator.Request -> orchestrator.EngineOutcome)
    (uid message : str) (history : option (list ChatMessage))
    (tools : option (list str)) (e : orchestrator.Raised) :
  engine (orchestrator.build_request orch message history tools)
  = orchestrator.Raises e ->
  orchestrator.isinstance e orchestrator.Exception = true ->
  exists r reply info,
    orchestrator.process_message orch engine uid message history tools
    = orchestrator.Returns r /\
    orchestrator.finish_reason r = lit "error" /\
    orchestrator.response r = Some reply /\
    orchestrator.result_tool_calls r = None /\
    orchestrator.error r = Some info /\
    reply ∈
      [lit "I'm experiencing high demand right now. Please try again in a moment.";
       lit "I'm temporarily unavailable due to a configuration issue. Please contact support.";
       lit "I'm having trouble connecting to my AI services. Please try again in a moment.";
       lit "I'm temporarily unavailable. Please try again shortly.";
       lit "I encountered an error processing your request. Please try again or rephrase your message.";
       lit "I encountered an unexpected error. Please try again."] /\
    orchestrator.err_type info
    = (if orchestrator.isinstance e orchestrator.RateLimitError
       then lit "RateLimitError"
       else if orchestrator.isinstance e orchestrator.AuthenticationError
       then lit "AuthenticationError"
       else if orchestrator.isinstance e orchestrator.APIConnectionError
       then lit "ConnectionError"
       else if orchestrator.isinstance e orchestrator.APIError
       then (if bool_decide (orchestrator.status_code e = Some 503)
             then lit "ServiceUnavailable" else lit "APIError")
       else if orchestrator.isinstance e orchestrator.OpenAIError
       then lit "OpenAIError"
       else lit "UnexpectedError").
Proof.
  intros Hengine Hexc. unfold orchestrator.process_message.
  rewrite Hengine. unfold orchestrator.handle_exception, orchestrator.error_result.
  rewrite Hexc.
  destruct (orchestrator.isinstance e orchestrator.RateLimitError).
  { eexists _, _, _. repeat split. set_solver. }
  destruct (orchestrator.isinstance e orchestrator.AuthenticationError).
  { eexists _, _, _. repeat split. set_solver. }
  destruct (orchestrator.isinstance e orchestrator.APIConnectionError).
  { eexists _, _, _. repeat split. set_solver. }
  destruct (orchestrator.isinstance e orchestrator.APIError).
  { destruct (bool_decide (orchestrator.status_code e = Some 503));
      eexists _, _, _; repeat split; set_solver. }
  destruct (orchestrator.isinstance e orchestrator.OpenAIError);
    eexists _, _, _; repeat split; set_solver.
Qed.

(** A rate-limit error of the client library, whose class derives from
    its API error classes. *)
Lemma process_message_degrades_on_engine_failure_witness :
  let e :=
    orchestrator.mkRaised
      [orchestrator.RateLimitError; orchestrator.APIError;
       orchestrator.OpenAIError; orchestrator.Exception]
      (Some 429) (lit "Rate limit reached") in
  let engine := fun _ : orchestrator.Request => orchestrator.Raises e in
  exists r,
    orchestrator.process_message
      (orchestrator.mkOrchestrator (lit "gpt-4o") (lit "You are a task assistant."))
      engine (lit "u1") (lit "add milk") None None
    = orchestrator.Returns r /\
    orchestrator.finish_reason r = lit "error".
Proof.
  intros e engine.
  destruct (process_message_degrades_on_engine_failure
              (orchestrator.mkOrchestrator (lit "gpt-4o")
                 (lit "You are a task assistant."))
              engine (lit "u1") (lit "add milk") None None e)
    as (r & reply & info & Hrun & Hfinish & _); [reflexivity | reflexivity |].
  exists r. split; [exact Hrun | exact Hfinish].
Defined.

(** An empty list of choices is absorbed as well: [choices[0]] raises
    inside the [try]. *)
Lemma process_message_no_choice (orch : orchestrator.AgentOrchestrator)
    (engine : orchestrator.Request -> orchestrator.EngineOutcome)
    (uid message : str) (history : option (list ChatMessage))
    (tools : option (list str)) :
  engine (orchestrator.build_request orch message history tools)
  = orchestrator.Completed [] ->
  exists r, orchestrator.process_message orch engine uid message history tools
            = orchestrator.Returns r /\
            orchestrator.finish_reason r = lit "error".
Proof.
  intros Hengine. unfold orchestrator.process_message. rewrite Hengine.
  eexists. split; reflexivity.
Qed.

(** ** History retrieval *)

Lemma insert_desc_oldest (m : Message) (sorted : list Message) :
  Forall (fun x => msg_created_at m < msg_created_at x) sorted ->
  conversation_manager.insert_desc m sorted = sorted ++ [m].
Proof.
  induction 1 as [|x xs Hx _ IH]; simpl; [done|].
  destruct (Z.leb_spec (msg_created_at x) (msg_created_at m)); [lia|].
  by rewrite IH.
Qed.

(** On rows logged at strictly increasing instants, newest-first order
    is the reverse of the log. *)
Lemma order_by_created_at_desc_rev (rows : list Message) :
  StronglySorted (fun a b => msg_created_at a < msg_created_at b) rows ->
  conversation_manager.order_by_created_at_desc rows = rev rows.
Proof.
  induction 1 as [|m rows _ IH Hm]; simpl; [done|].
  unfold conversation_manager.order_by_created_at_desc in *. simpl.
  rewrite IH. apply insert_desc_oldest.
  apply Forall_forall. intros x Hx. rewrite elem_of_rev in Hx.
  rewrite Forall_forall in Hm. by apply Hm.
Qed.

Lemma rev_take_rev {A} (k : nat) (l : list A) :
  rev (take k (rev l)) = drop (length l - k) l.
Proof. rewrite firstn_rev. apply rev_involutive. Qed.

(** C5 (as amended).  For a conversation the caller owns, whose [N]
    messages were logged at strictly increasing instants, and a limit
    that is positive once the default has replaced an absent or zero
    one: the history is the token-budget truncation of the most recent
    [min N limit] messages, oldest first, each as [{role, content}]; it
    is exactly those messages when their summed estimates are within
    the manager's budget, and always a contiguous tail of them. *)
Theorem get_conversation_history_recent_tail
    (cm : conversation_manager.ConversationManager) (st : Store)
    (cid : Z) (uid : str) (limit : option Z) (c : Conversation) :
  conversations st !! cid = Some c -> conv_user_id c = uid ->
  0 < int_or limit (conversation_manager.max_history_messages cm) ->
  StronglySorted (fun a b => msg_created_at a < msg_created_at b)
    (conversation_manager.messages_of st cid) ->
  let stored := conversation_manager.messages_of st cid in
  let n :=
    Nat.min (length stored)
      (Z.to_nat (int_or limit (conversation_manager.max_history_messages cm))) in
  let recent :=
    map conversation_manager.format_message (drop (length stored - n) stored) in
  length recent = n /\
  conversation_manager.get_conversation_history cm st cid uid limit
  = inr (conversation_manager.truncate_history_by_tokens cm recent None) /\
  (conversation_manager.total_tokens cm recent
   <= int_or None (conversation_manager.max_context_tokens cm) ->
   conversation_manager.get_conversation_history cm st cid uid limit = inr recent) /\
  (exists history,
     conversation_manager.get_conversation_history cm st cid uid limit = inr history /\
     history `suffix_of` recent).
Proof.
  intros Hc Hown Hlimit Hsorted stored n recent.
  assert (Hdrop : drop (length stored - n) stored
                  = drop (length stored
                          - Z.to_nat (int_or limit
                               (conversation_manager.max_history_messages cm)))
                         stored).
  { subst n. f_equal. lia. }
  assert (Hrun : conversation_manager.get_conversation_history cm st cid uid limit
                 = inr (conversation_manager.truncate_history_by_tokens cm recent None)).
  { unfold conversation_manager.get_conversation_history.
    rewrite Hc, bool_decide_eq_false_2 by (intros Hne; by apply Hne).
    rewrite (order_by_created_at_desc_rev _ Hsorted), rev_take_rev.
    subst recent. by rewrite Hdrop. }
  split; [|split; [exact Hrun|split]].
  - subst recent. rewrite length_map, length_drop. subst n. lia.
  - intros Hfit. rewrite Hrun. f_equal.
    unfold conversation_manager.truncate_history_by_tokens.
    by destruct (Z.leb_spec (conversation_manager.total_tokens cm recent)
                   (int_or None (conversation_manager.max_context_tokens cm)));
      [|lia].
  - eexists. split; [exact Hrun|].
    unfold conversation_manager.truncate_history_by_tokens.
    destruct (Z.leb_spec (conversation_manager.total_tokens cm recent)
                (int_or None (conversation_manager.max_context_tokens cm))); [done|].
    destruct (truncate_loop_from_empty cm
                (int_or None (conversation_manager.max_context_tokens cm)) recent)
      as (dropped & kept & Hsplit & -> & _).
    by exists dropped.
Qed.

(** The scenario of the spec: "Hi", then "Hello!". *)
Lemma get_conversation_history_recent_tail_witness :
  let st :=
    mkStore {[ 1 := mkConversation (lit "u1") 100 102 ]}
      [mkMessage 1 1 (lit "u1") (lit "user") (lit "Hi") 101;
       mkMessage 2 1 (lit "u1") (lit "assistant") (lit "Hello!") 102]
      ∅ 2 3 1 in
  conversation_manager.get_conversation_history
    conversation_manager.default_manager st 1 (lit "u1") None
  = inr [mkChatMessage (lit "user") (lit "Hi") None;
         mkChatMessage (lit "assistant") (lit "Hello!") None].
Proof.
  intros st.
  destruct (get_conversation_history_recent_tail
              conversation_manager.default_manager st 1 (lit "u1") None
              (mkConversation (lit "u1") 100 102))
    as (_ & _ & Hexact & _).
  - reflexivity.
  - reflexivity.
  - simpl. lia.
  - repeat constructor; simpl; lia.
  - apply Hexact. vm_compute. discriminate.
Defined.

(** C5, counterexample.  Two stored messages of 10,000 characters are
    2,500 tokens each without a tokenizer; with limit 20 the claim
    promises both, and the history holds the newest alone, the budget
    being 4,000 tokens. *)
Lemma get_conversation_history_truncated_counterexample :
  length (conversation_manager.messages_of long_history_store 1) = 2%nat /\
  conversation_manager.get_conversation_history
    conversation_manager.default_manager long_history_store 1 (lit "u1") (Some 20)
  = inr [mkChatMessage (lit "assistant") (repeat 98%N (Z.to_nat 10000)) None] /\
  Nat.min 2 (Z.to_nat 20) <> 1%nat.
Proof.
  split; [reflexivity|]. split; [vm_compute; reflexivity|]. vm_compute. discriminate.
Qed.

(** ** Persistence of a turn *)















(** A reply that [store_message] refuses.  The engine stops with an
    empty text and no session fails: the user message is stored, the
    refusal of the empty reply is caught like a failing session, and
    the turn answers with one message logged. *)
Lemma chat_empty_reply_logs_user_message_only :
  let run :=
    chat.chat (quiet_env silent_engine) conversation_manager.default_manager
      (orchestrator.mkOrchestrator (lit "gpt-4o") (lit "You are a task assistant."))
      sample_store (lit "u1") (chat.mkChatRequest (lit "Hi") (Some 1)) (lit "u1") in
  run.2 = chat.Respond (chat.mkChatResponse 1 [] None 190) /\
  messages sample_store = [] /\
  messages run.1 = [mkMessage 1 1 (lit "u1") (lit "user") (lit "Hi") 170] /\
  length (messages run.1) <> (length (messages sample_store) + 2)%nat.
Proof.
  intros run. split; [reflexivity|]. split; [reflexivity|].
  split; [reflexivity|]. vm_compute. discriminate.
Qed.

(** * Further properties of the code *)

(** ** The orchestrator's character-count truncation *)

Lemma count_tokens_char_counting (text : str) :
  conversation_manager.count_tokens char_counting text = len text.
Proof.
  unfold conversation_manager.count_tokens, char_counting, len. simpl.
  by rewrite length_map.
Qed.

Lemma total_chars_char_counting (msgs : list ChatMessage) :
  orchestrator.total_chars msgs
  = conversation_manager.total_tokens char_counting msgs.
Proof.
  induction msgs as [|m msgs IH]; simpl; [done|].
  by rewrite IH, count_tokens_char_counting.
Qed.

(** The two truncation loops are one algorithm, counting characters in
    one place and token estimates in the other. *)
Lemma truncate_history_loop_char_counting (max_chars : Z)
    (pending truncated : list ChatMessage) (char_count : Z) :
  orchestrator.truncate_history_loop max_chars pending truncated char_count
  = conversation_manager.truncate_loop char_counting max_chars pending
      truncated char_count.
Proof.
  revert truncated char_count.
  induction pending as [|msg older IH]; intros truncated char_count; simpl; [done|].
  rewrite count_tokens_char_counting, IH.
  destruct (Z.ltb_spec max_chars (char_count + len (content msg)));
    destruct (Z.leb_spec (char_count + len (content msg)) max_chars);
    try lia; done.
Qed.

(** What [truncate_history] keeps, stated once for the results below. *)
Lemma truncate_history_tail_spec (msgs : list ChatMessage) (B : Z) :
  let r := orchestrator.truncate_history msgs B in
  (orchestrator.total_chars msgs <= B * 4 -> r = msgs) /\
  r `suffix_of` msgs /\
  (0 <= B -> orchestrator.total_chars r <= B * 4) /\
  (forall older m, msgs = older ++ m :: r ->
     B * 4 < len (content m) + orchestrator.total_chars r).
Proof.
  intros r. subst r. unfold orchestrator.truncate_history.
  destruct (Z.leb_spec (orchestrator.total_chars msgs) (B * 4)) as [Hfit|Hover].
  - split; [done|]. split; [done|]. split; [done|].
    intros older m Heq. apply (f_equal length) in Heq.
    rewrite length_app in Heq. simpl in Heq. lia.
  - rewrite truncate_history_loop_char_counting.
    destruct (truncate_loop_from_empty char_counting (B * 4) msgs)
      as (dropped & kept & Hsplit & -> & Hsum & Hstop).
    rewrite !total_chars_char_counting in *.
    split; [lia|]. split; [by exists dropped|].
    split; [intros; apply Hsum; left; lia|].
    intros older m Heq. rewrite Hsplit in Heq.
    assert (Hd : dropped = older ++ [m]).
    { apply (app_inv_tail kept). rewrite <- app_assoc. exact Heq. }
    rewrite Hd, rev_app_distr in Hstop. simpl in Hstop.
    by rewrite count_tokens_char_counting in Hstop.
Qed.

(** X1.  [truncate_history] returns the list unchanged when its
    characters fit in four times the budget, and otherwise the longest
    newest tail that fits: the result is a contiguous tail of the
    input, its characters fit whenever the budget is not negative, and
    the entry just before the kept tail is one that overflowed.  The
    budget is taken as given, zero included. *)
Theorem truncate_history_contiguous_tail (msgs : list ChatMessage) (B : Z) :
  let r := orchestrator.truncate_history msgs B in
  (orchestrator.total_chars msgs <= B * 4 -> r = msgs) /\
  r `suffix_of` msgs /\
  (0 <= B -> orchestrator.total_chars r <= B * 4) /\
  (forall older m, msgs = older ++ m :: r ->
     B * 4 < len (content m) + orchestrator.total_chars r).
Proof. apply truncate_history_tail_spec. Qed.

(** The kept tail is the longest one within the budget: every tail of
    the input that fits is a tail of it. *)
Lemma truncate_loop_longest (cm : conversation_manager.ConversationManager)
    (max_tokens : Z) (msgs s : list ChatMessage) :
  s `suffix_of` msgs ->
  conversation_manager.total_tokens cm s <= max_tokens ->
  s `suffix_of` conversation_manager.truncate_loop cm max_tokens (rev msgs) [] 0.
Proof.
  intros Hs Hfit.
  destruct (truncate_loop_from_empty cm max_tokens msgs)
    as (dropped & kept & Hsplit & -> & _ & Hstop).
  destruct (suffix_weak_total s kept msgs) as [Hsk|[k Hk]];
    [done | by exists dropped | done |].
  destruct k as [|m k _] using rev_ind; [by exists []; rewrite Hk|].
  exfalso. destruct Hs as [p Hp].
  assert (Hd : dropped = (p ++ k) ++ [m]).
  { apply (app_inv_tail kept). rewrite <- Hsplit, Hp, Hk.
    by rewrite <- !app_assoc. }
  rewrite Hd, rev_app_distr in Hstop.
  simpl in Hstop. rewrite Hk, !total_tokens_app in Hfit. simpl in Hfit.
  pose proof (total_tokens_nonneg cm k). lia.
Qed.

Lemma four_tokens_per_char (cm : conversation_manager.ConversationManager)
    (msgs : list ChatMessage) :
  conversation_manager.tokenizer cm = None ->
  4 * conversation_manager.total_tokens cm msgs <= orchestrator.total_chars msgs.
Proof.
  intros Hnone. induction msgs as [|m msgs IH]; simpl; [lia|].
  assert (4 * conversation_manager.count_tokens cm (content m) <= len (content m)).
  { unfold conversation_manager.count_tokens. rewrite Hnone.
    apply Z.mul_div_le. lia. }
  lia.
Qed.

(** X2.  Without a tokenizer and for a positive budget, what the
    orchestrator's character-count truncation keeps is a tail of what
    the manager's token truncation keeps for the same budget: the
    safety net never lets through an entry the manager would drop. *)
Theorem truncate_history_within_token_truncation
    (cm : conversation_manager.ConversationManager)
    (msgs : list ChatMessage) (B : Z) :
  conversation_manager.tokenizer cm = None -> 0 < B ->
  orchestrator.truncate_history msgs B
    `suffix_of` conversation_manager.truncate_history_by_tokens cm msgs (Some B).
Proof.
  intros Hnone HB.
  destruct (truncate_history_tail_spec msgs B) as (_ & Hsuffix & Hchars & _).
  specialize (Hchars ltac:(lia)).
  pose proof (four_tokens_per_char cm (orchestrator.truncate_history msgs B) Hnone).
  unfold conversation_manager.truncate_history_by_tokens. simpl.
  destruct (Z.eqb_spec B 0); [lia|].
  destruct (Z.leb_spec (conversation_manager.total_tokens cm msgs) B); [done|].
  apply truncate_loop_longest; [done | lia].
Qed.

(** Five entries of 1,000 characters under a budget of 500 tokens. *)
Lemma truncate_history_within_token_truncation_witness :
  let msgs :=
    map (fun c => mkChatMessage (lit "user") (repeat c (Z.to_nat 1000)) None)
        [65; 66; 67; 68; 69]%N in
  orchestrator.truncate_history msgs 500
    `suffix_of` conversation_manager.truncate_history_by_tokens
                  conversation_manager.default_manager msgs (Some 500).
Proof.
  intros msgs.
  apply (truncate_history_within_token_truncation
           conversation_manager.default_manager msgs 500); [reflexivity | lia].
Defined.

(** ** The message log of a conversation *)

Lemma truncate_history_by_tokens_keeps_newest
    (cm : conversation_manager.ConversationManager)
    (older : list ChatMessage) (newest : ChatMessage) (budget : option Z) :
  conversation_manager.count_tokens cm (content newest)
  <= int_or budget (conversation_manager.max_context_tokens cm) ->
  exists r',
    conversation_manager.truncate_history_by_tokens cm (older ++ [newest]) budget
    = r' ++ [newest].
Proof.
  intros Hfit. unfold conversation_manager.truncate_history_by_tokens.
  destruct (_ <=? _); [by exists older|].
  rewrite rev_app_distr. simpl.
  destruct (Z.leb_spec (0 + conversation_manager.count_tokens cm (content newest))
              (int_or budget (conversation_manager.max_context_tokens cm)));
    [|lia].
  destruct (truncate_loop_spec cm
              (int_or budget (conversation_manager.max_context_tokens cm))
              (rev older) [newest]
              (0 + conversation_manager.count_tokens cm (content newest)))
    as (kept & dropped & _ & -> & _); [simpl; lia|].
  by exists (rev kept).
Qed.

Lemma store_message_log (st st' : Store) (cid : Z) (uid role : str)
    (content : option str) (created now : Z) (fault : bool) (m : Message) :
  conversation_manager.store_message st cid uid role content created now fault
  = (st', inr m) ->
  messages st' = messages st ++ [m] /\ msg_conversation_id m = cid /\
  msg_created_at m = created /\
  exists c, conversations st !! cid = Some c /\ conv_user_id c = uid /\
    conversations st'
    = <[cid := mkConversation uid (conv_created_at c) now]> (conversations st).
Proof.
  unfold conversation_manager.store_message. intros Hrun.
  repeat (case_match; simplify_eq; simpl in *).
  split; [done|]. split; [done|]. split; [done|].
  eexists. split; [done|].
  match goal with H : bool_decide (_ ≠ _) = false |- _ =>
    apply bool_decide_eq_false in H; apply dec_stable in H end.
  split; [done|]. by subst.
Qed.

(** Newest first, a row newer than all the others comes first, however
    the others are ordered. *)
Lemma order_by_created_at_desc_newest (rows : list Message) (m : Message) :
  Forall (fun x => msg_created_at x < msg_created_at m) rows ->
  conversation_manager.order_by_created_at_desc (rows ++ [m])
  = m :: conversation_manager.order_by_created_at_desc rows.
Proof.
  unfold conversation_manager.order_by_created_at_desc.
  induction 1 as [|x xs Hx _ IH]; simpl; [done|].
  rewrite IH. simpl.
  destruct (Z.leb_spec (msg_created_at m) (msg_created_at x)); [lia|done].
Qed.

(** X3.  A stored message is read back: after a successful
    [store_message] the conversation's log is the old one followed by
    the new message and every other conversation's log is as before;
    and when the new message is newer by its instant than every message
    the conversation had, the limit in force is positive and the
    message's own token estimate is within the budget, the history the
    manager then assembles ends with it. *)
Theorem store_message_then_history
    (cm : conversation_manager.ConversationManager) (st st' : Store)
    (cid : Z) (uid role : str) (content : option str) (created now : Z)
    (m : Message) (limit : option Z) :
  conversation_manager.store_message st cid uid role content created now false
  = (st', inr m) ->
  conversation_manager.messages_of st' cid
  = conversation_manager.messages_of st cid ++ [m] /\
  (forall c', c' <> cid ->
     conversation_manager.messages_of st' c'
     = conversation_manager.messages_of st c') /\
  (Forall (fun x => msg_created_at x < created)
     (conversation_manager.messages_of st cid) ->
   0 < int_or limit (conversation_manager.max_history_messages cm) ->
   conversation_manager.count_tokens cm (msg_content m)
   <= int_or None (conversation_manager.max_context_tokens cm) ->
   exists earlier,
     conversation_manager.get_conversation_history cm st' cid uid limit
     = inr (earlier ++ [conversation_manager.format_message m])).
Proof.
  intros Hrun.
  destruct (store_message_log _ _ _ _ _ _ _ _ _ _ Hrun)
    as (Hlog & Hcid & Hcreated & c & Hc & Hown & Hconv).
  assert (Hof : conversation_manager.messages_of st' cid
                = conversation_manager.messages_of st cid ++ [m]).
  { unfold conversation_manager.messages_of. rewrite Hlog, List.filter_app.
    simpl. by rewrite Hcid, Z.eqb_refl. }
  split; [exact Hof|]. split.
  { intros c' Hne. unfold conversation_manager.messages_of.
    rewrite Hlog, List.filter_app. simpl. rewrite Hcid.
    destruct (Z.eqb_spec cid c'); [congruence|]. by rewrite app_nil_r. }
  intros Hnewest Hlimit Hfit.
  unfold conversation_manager.get_conversation_history.
  rewrite Hconv, lookup_insert_eq. simpl.
  rewrite bool_decide_eq_false_2 by (intros Hne; by apply Hne).
  rewrite Hof, order_by_created_at_desc_newest by (by rewrite Hcreated).
  destruct (Z.to_nat (int_or limit (conversation_manager.max_history_messages cm)))
    as [|n] eqn:Hn; [lia|].
  simpl. rewrite map_app. simpl.
  destruct (truncate_history_by_tokens_keeps_newest cm
              (map conversation_manager.format_message
                 (rev (take n (conversation_manager.order_by_created_at_desc
                                 (conversation_manager.messages_of st cid)))))
              (conversation_manager.format_message m) None) as [r' Hr']; [done|].
  exists r'. by rewrite Hr'.
Qed.

(** "Hi" stored after the two messages of 10,000 characters: the
    history read back is cut to the budget and still ends with "Hi". *)
Lemma store_message_then_history_witness :
  let run :=
    conversation_manager.store_message long_history_store 1 (lit "u1") (lit "user")
      (Some (lit "Hi")) 200 201 false in
  exists earlier,
    conversation_manager.get_conversation_history
      conversation_manager.default_manager run.1 1 (lit "u1") None
    = inr (earlier ++ [mkChatMessage (lit "user") (lit "Hi") None]).
Proof.
  intros run.
  destruct (store_message_then_history conversation_manager.default_manager
              long_history_store run.1 1 (lit "u1") (lit "user") (Some (lit "Hi"))
              200 201 (mkMessage 3 1 (lit "u1") (lit "user") (lit "Hi") 200) None)
    as (_ & _ & Hhistory); [reflexivity|].
  apply Hhistory.
  - repeat (constructor; [simpl; lia|]). constructor.
  - reflexivity.
  - vm_compute. discriminate.
Defined.

(** ** Deleting and listing conversations *)

Lemma filter_split_length {A} (f : A -> bool) (l : list A) :
  (length (List.filter f l) + length (List.filter (fun x => negb (f x)) l)
   = length l)%nat.
Proof.
  induction l as [|x l IH]; simpl; [done|].
  destruct (f x); simpl; lia.
Qed.

Lemma filter_other_conversation (cid c' : Z) (l : list Message) :
  c' <> cid ->
  List.filter (fun m => msg_conversation_id m =? c')
    (List.filter (fun m => negb (msg_conversation_id m =? cid)) l)
  = List.filter (fun m => msg_conversation_id m =? c') l.
Proof.
  intros Hne. induction l as [|x l IH]; simpl; [done|].
  destruct (Z.eqb_spec (msg_conversation_id x) cid) as [Hx|Hx]; simpl.
  - destruct (Z.eqb_spec (msg_conversation_id x) c'); [congruence|done].
  - destruct (msg_conversation_id x =? c'); by rewrite IH.
Qed.

Lemma filter_same_conversation (cid : Z) (l : list Message) :
  List.filter (fun m => msg_conversation_id m =? cid)
    (List.filter (fun m => negb (msg_conversation_id m =? cid)) l) = [].
Proof.
  induction l as [|x l IH]; simpl; [done|].
  destruct (msg_conversation_id x =? cid) eqn:Hx; simpl; [done|].
  by rewrite Hx.
Qed.

(** X4.  A successful [delete_conversation] was asked by the owner; it
    removes the conversation and every message of it and nothing else:
    the logs of other conversations, the other conversations and the
    tasks are as before, and the count returned is the number of
    messages removed.  The conversation is unknown afterwards. *)
Theorem delete_conversation_cascades
    (cm : conversation_manager.ConversationManager) (st st' : Store)
    (cid : Z) (uid : str) (fault : bool) (deleted count : Z) :
  conversation_manager.delete_conversation st cid uid fault
  = (st', inr (deleted, count)) ->
  (exists c, conversations st !! cid = Some c /\ conv_user_id c = uid) /\
  deleted = cid /\
  count = len (conversation_manager.messages_of st cid) /\
  len (messages st') = len (messages st) - count /\
  conversations st' !! cid = None /\
  conversation_manager.messages_of st' cid = [] /\
  (forall c', c' <> cid ->
     conversations st' !! c' = conversations st !! c' /\
     conversation_manager.messages_of st' c'
     = conversation_manager.messages_of st c') /\
  tasks st' = tasks st /\
  (forall limit,
     conversation_manager.get_conversation_history cm st' cid uid limit
     = inl conversation_manager.ConversationNotFound).
Proof.
  unfold conversation_manager.delete_conversation,
    conversation_manager.get_conversation.
  destruct (conversations st !! cid) as [c|] eqn:Hc; [|discriminate].
  case_bool_decide as Hown; [discriminate|].
  destruct fault; [discriminate|]. intros [= <- <- <-].
  split; [by exists c|]. split; [done|]. split; [done|].
  unfold conversation_manager.messages_of,
    conversation_manager.get_conversation_history, len. simpl.
  split.
  { pose proof (filter_split_length
                  (fun m => msg_conversation_id m =? cid) (messages st)). lia. }
  rewrite lookup_delete_eq.
  split; [done|]. split; [apply filter_same_conversation|].
  split; [|done].
  intros c' Hne. split; [by apply lookup_delete_ne|].
  by apply filter_other_conversation.
Qed.

Lemma delete_conversation_cascades_witness :
  let run :=
    conversation_manager.delete_conversation long_history_store 1 (lit "u1")
      false in
  run.2 = inr (1, 2) /\ messages run.1 = [].
Proof.
  intros run.
  destruct (delete_conversation_cascades conversation_manager.default_manager
              long_history_store run.1 1 (lit "u1") false 1 2)
    as (_ & _ & _ & _ & _ & Hlog & _); [reflexivity|].
  split; reflexivity.
Defined.

(** X5.  The messages endpoint answers the owner with exactly the most
    recent [min N limit] messages of the conversation, oldest first and
    whole: the token-budget truncation of the manager's history does
    not reach its response. *)
Theorem get_conversation_messages_recent
    (cm : conversation_manager.ConversationManager) (st : Store)
    (uid : str) (cid limit : Z) (c : Conversation) :
  conversations st !! cid = Some c -> conv_user_id c = uid -> 0 < limit ->
  StronglySorted (fun a b => msg_created_at a < msg_created_at b)
    (conversation_manager.messages_of st cid) ->
  let stored := conversation_manager.messages_of st cid in
  let n := Nat.min (length stored) (Z.to_nat limit) in
  conversations.get_conversation_messages cm st uid cid uid limit
  = conversations.Payload
      (map conversations.message_response (drop (length stored - n) stored)) /\
  length (drop (length stored - n) stored) = n.
Proof.
  intros Hc Hown Hlimit Hsorted stored n.
  unfold conversations.get_conversation_messages,
    conversation_manager.get_conversation,
    conversation_manager.get_conversation_history.
  rewrite bool_decide_eq_false_2 by (intros Hne; by apply Hne).
  rewrite Hc, bool_decide_eq_false_2 by (intros Hne; by apply Hne).
  rewrite (order_by_created_at_desc_rev _ Hsorted), rev_take_rev.
  subst stored n. split.
  - f_equal. f_equal. f_equal. lia.
  - rewrite length_drop. lia.
Qed.

(** The two long messages of conversation 1, which the manager's
    history cuts to one, both come back. *)
Lemma get_conversation_messages_recent_witness :
  conversations.get_conversation_messages conversation_manager.default_manager
    long_history_store (lit "u1") 1 (lit "u1") 20
  = conversations.Payload
      (map conversations.message_response (messages long_history_store)).
Proof.
  destruct (get_conversation_messages_recent conversation_manager.default_manager
              long_history_store (lit "u1") 1 20
              (mkConversation (lit "u1") 100 102))
    as [Hrun _]; [reflexivity | reflexivity | lia | |exact Hrun].
  repeat constructor; simpl; lia.
Defined.

Lemma insert_conversation_perm (key : Conversation -> Z) (descending : bool)
    (r : Z * Conversation) (sorted : list (Z * Conversation)) :
  conversation_manager.insert_conversation key descending r sorted ≡ₚ r :: sorted.
Proof.
  induction sorted as [|x xs IH]; simpl; [done|].
  destruct (if descending then _ else _); [done|].
  rewrite IH. apply Permutation_swap.
Qed.

Lemma sort_conversations_perm (key : Conversation -> Z) (descending : bool)
    (rows : list (Z * Conversation)) :
  foldr (conversation_manager.insert_conversation key descending) [] rows ≡ₚ rows.
Proof.
  induction rows as [|r rows IH]; simpl; [done|].
  by rewrite insert_conversation_perm, IH.
Qed.

Lemma insert_conversation_sorted (key : Conversation -> Z) (descending : bool)
    (r : Z * Conversation) (sorted : list (Z * Conversation)) :
  let before (a b : Z * Conversation) :=
    if descending then key b.2 <= key a.2 else key a.2 <= key b.2 in
  StronglySorted before sorted ->
  StronglySorted before
    (conversation_manager.insert_conversation key descending r sorted).
Proof.
  intros before. induction 1 as [|x xs Hxs IH Hx]; simpl.
  - repeat constructor.
  - destruct (if descending then key x.2 <=? key r.2 else key r.2 <=? key x.2)
      eqn:Hcmp.
    + assert (Hrx : before r x).
      { subst before. destruct descending; simpl; lia. }
      constructor; [by constructor|]. constructor; [done|].
      eapply Forall_impl; [exact Hx|]. intros y Hxy.
      subst before. destruct descending; simpl in *; lia.
    + assert (Hxr : before x r).
      { subst before. destruct descending; simpl; lia. }
      constructor; [done|].
      rewrite insert_conversation_perm. by constructor.
Qed.

Lemma sort_conversations_sorted (key : Conversation -> Z) (descending : bool)
    (rows : list (Z * Conversation)) :
  StronglySorted
    (fun a b : Z * Conversation =>
       if descending then key b.2 <= key a.2 else key a.2 <= key b.2)
    (foldr (conversation_manager.insert_conversation key descending) [] rows).
Proof.
  induction rows as [|r rows IH]; simpl; [constructor|].
  by apply insert_conversation_sorted.
Qed.

(** Whatever is listed is a stored conversation of the caller. *)
Lemma list_conversations_elem (st : Store) (uid : str) (limit : Z)
    (sort_by order : str) (id : Z) (c : Conversation) :
  (id, c) ∈ conversation_manager.list_conversations st uid limit sort_by order ->
  conversations st !! id = Some c /\ conv_user_id c = uid.
Proof.
  unfold conversation_manager.list_conversations. intros Hin.
  eapply elem_of_submseteq in Hin; [|apply submseteq_take].
  rewrite sort_conversations_perm in Hin.
  rewrite list_elem_of_In, filter_In, <- list_elem_of_In in Hin.
  rewrite elem_of_map_to_list, bool_decide_eq_true in Hin. simpl in Hin. tauto.
Qed.

(** X6.  [list_conversations] returns conversations of the caller only,
    each as stored; at most [limit] of them; ordered by the chosen
    column, newest first for "desc" and oldest first otherwise; and all
    of the caller's conversations when there are no more than [limit]. *)
Theorem list_conversations_owned_sorted (st : Store) (uid : str) (limit : Z)
    (sort_by order : str) :
  let listed := conversation_manager.list_conversations st uid limit sort_by order in
  let key :=
    if bool_decide (sort_by = lit "created_at") then conv_created_at
    else conv_updated_at in
  (forall id c, (id, c) ∈ listed ->
     conversations st !! id = Some c /\ conv_user_id c = uid) /\
  (0 <= limit -> len listed <= limit) /\
  StronglySorted
    (fun a b : Z * Conversation =>
       if bool_decide (order = lit "desc") then key b.2 <= key a.2
       else key a.2 <= key b.2) listed /\
  (forall id c, conversations st !! id = Some c -> conv_user_id c = uid ->
     Z.of_nat (size (conversations st)) <= limit -> (id, c) ∈ listed).
Proof.
  intros listed key. subst listed. unfold conversation_manager.list_conversations.
  fold key.
  set (rows := List.filter _ (map_to_list (conversations st))).
  set (sorted := foldr _ [] rows).
  assert (Hperm : sorted ≡ₚ rows) by apply sort_conversations_perm.
  assert (Hrows : forall id c, (id, c) ∈ rows <->
            conversations st !! id = Some c /\ conv_user_id c = uid).
  { intros id c. subst rows. rewrite list_elem_of_In, filter_In, <- list_elem_of_In.
    rewrite elem_of_map_to_list, bool_decide_eq_true. simpl. tauto. }
  split; [|split; [|split]].
  - intros id c Hin. by apply (list_conversations_elem st uid limit sort_by order).
  - intros Hlimit. unfold len. rewrite length_take. lia.
  - pose proof (sort_conversations_sorted key (bool_decide (order = lit "desc")) rows)
      as Hsorted. fold sorted in Hsorted.
    rewrite <- (take_drop (Z.to_nat limit) sorted) in Hsorted.
    by apply StronglySorted_app in Hsorted as (_ & Htake & _).
  - intros id c Hc Hown Hsize.
    rewrite take_ge.
    + rewrite Hperm. by apply Hrows.
    + rewrite Hperm. subst rows.
      pose proof (filter_split_length
                    (fun r : Z * Conversation => bool_decide (conv_user_id r.2 = uid))
                    (map_to_list (conversations st))) as Hlen.
      rewrite length_map_to_list in Hlen. lia.
Qed.

(** ** Isolation of conversations *)

(** X7.  A conversation of user [A] is closed to another user [B]: the
    manager's four operations raise "Unauthorized access", the messages
    and deletion endpoints and the chat route answer 404, nothing is
    stored or deleted, the completion engine plays no part, and the
    conversation is not among those listed for [B]. *)
Theorem conversation_closed_to_other_users
    (cm : conversation_manager.ConversationManager) (st : Store)
    (cid : Z) (c : Conversation) (A B : str) :
  conversations st !! cid = Some c -> conv_user_id c = A -> A <> B ->
  let refused := conversation_manager.UnauthorizedAccess in
  let not_yours :=
    lit "Unauthorized access to conversation " ++ lit (pretty cid) in
  conversation_manager.get_conversation st cid B = inl refused /\
  (forall limit,
     conversation_manager.get_conversation_history cm st cid B limit
     = inl refused) /\
  (forall role content created now fault,
     conversation_manager.store_message st cid B role content created now fault
     = (st, inl refused)) /\
  (forall fault,
     conversation_manager.delete_conversation st cid B fault = (st, inl refused)) /\
  (forall limit,
     conversations.get_conversation_messages cm st B cid B limit
     = conversations.HTTPException 404 not_yours) /\
  (forall fault,
     conversations.delete_conversation st B cid B fault
     = (st, conversations.HTTPException 404 not_yours)) /\
  (forall env orch message,
     cid <> 0 -> truthy (strip message) = true -> len message <= 10000 ->
     chat.chat env cm orch st B (chat.mkChatRequest message (Some cid)) B
     = (st, chat.HTTPException 404 not_yours)) /\
  (forall limit sort_by order c',
     (cid, c') ∉ conversation_manager.list_conversations st B limit sort_by order).
Proof.
  intros Hc Hown Hne refused not_yours.
  assert (Hother : bool_decide (conv_user_id c ≠ B) = true).
  { apply bool_decide_eq_true. congruence. }
  assert (Hget : conversation_manager.get_conversation st cid B = inl refused).
  { unfold conversation_manager.get_conversation. by rewrite Hc, Hother. }
  assert (Hdel : forall fault,
            conversation_manager.delete_conversation st cid B fault
            = (st, inl refused)).
  { intros fault. unfold conversation_manager.delete_conversation. by rewrite Hget. }
  split; [exact Hget|].
  split.
  { intros limit. unfold conversation_manager.get_conversation_history.
    by rewrite Hc, Hother. }
  split.
  { intros role content created now fault.
    unfold conversation_manager.store_message. by rewrite Hc, Hother. }
  split; [exact Hdel|].
  split.
  { intros limit. unfold conversations.get_conversation_messages.
    rewrite bool_decide_eq_false_2 by (intros H; by apply H). by rewrite Hget. }
  split.
  { intros fault. unfold conversations.delete_conversation.
    rewrite bool_decide_eq_false_2 by (intros H; by apply H). by rewrite Hdel. }
  split.
  { intros env orch message Hcid Hmessage Hlen. unfold chat.chat. simpl.
    rewrite bool_decide_eq_false_2 by (intros H; by apply H).
    assert (Hm : truthy message = true).
    { destruct message; [done|done]. }
    rewrite Hm, Hmessage. simpl.
    destruct (Z.ltb_spec 10000 (len message)); [lia|].
    unfold chat.resolve_conversation. simpl.
    destruct (Z.eqb_spec cid 0); [done|]. by rewrite Hget. }
  intros limit sort_by order c' Hin.
  apply list_conversations_elem in Hin as [Hc' HB]. congruence.
Qed.

(** User u2 and conversation 1 of u1. *)
Lemma conversation_closed_to_other_users_witness :
  conversations.delete_conversation sample_store (lit "u2") 1 (lit "u2") false
  = (sample_store,
     conversations.HTTPException 404 (lit "Unauthorized access to conversation 1")).
Proof.
  destruct (conversation_closed_to_other_users conversation_manager.default_manager
              sample_store 1 (mkConversation (lit "u1") 100 100)
              (lit "u1") (lit "u2"))
    as (_ & _ & _ & _ & _ & Hdelete & _);
    [reflexivity | reflexivity | discriminate |].
  apply Hdelete.
Defined.

(** ** Listing tasks *)

Lemma insert_task_perm (r : Z * Task) (sorted : list (Z * Task)) :
  list_tasks.insert_desc r sorted ≡ₚ r :: sorted.
Proof.
  induction sorted as [|x xs IH]; simpl; [done|].
  destruct (_ <=? _); [done|]. rewrite IH. apply Permutation_swap.
Qed.

Lemma sort_tasks_perm (rows : list (Z * Task)) :
  foldr list_tasks.insert_desc [] rows ≡ₚ rows.
Proof.
  induction rows as [|r rows IH]; simpl; [done|].
  by rewrite insert_task_perm, IH.
Qed.

Lemma sort_tasks_sorted (rows : list (Z * Task)) :
  StronglySorted
    (fun a b : Z * Task => task_created_at b.2 <= task_created_at a.2)
    (foldr list_tasks.insert_desc [] rows).
Proof.
  induction rows as [|r rows IH]; simpl; [constructor|].
  induction IH as [|x xs Hxs IH Hx]; simpl; [repeat constructor|].
  destruct (Z.leb_spec (task_created_at x.2) (task_created_at r.2)).
  - constructor; [by constructor|]. constructor; [done|].
    eapply Forall_impl; [exact Hx|]. simpl. intros; lia.
  - constructor; [done|]. rewrite insert_task_perm. constructor; [lia|done].
Qed.

(** The rows [list_tasks] selects: the caller's, in the state asked. *)
Lemma list_tasks_selected (st : Store) (uid flt : str) (k : Z) (t : Task) :
  (k, t) ∈ List.filter
      (fun r : Z * Task =>
         bool_decide (task_user_id r.2 = uid)
         && (if bool_decide (flt = lit "pending") then negb (task_completed r.2)
             else if bool_decide (flt = lit "completed") then task_completed r.2
             else true))
      (map_to_list (tasks st))
  <-> tasks st !! k = Some t /\ task_user_id t = uid /\
      (flt = lit "pending" -> task_completed t = false) /\
      (flt = lit "completed" -> task_completed t = true).
Proof.
  rewrite list_elem_of_In, filter_In, <- list_elem_of_In, elem_of_map_to_list.
  rewrite andb_true_iff, bool_decide_eq_true. simpl.
  repeat case_bool_decide; subst; try discriminate;
    destruct (task_completed t); simpl; naive_solver.
Qed.

(** X8.  A successful [list_tasks] had valid parameters and returns
    tasks of the caller only, each as stored and in the state the
    filter asks for; at most [limit] of them, newest first; [has_more]
    says whether tasks remain beyond the page; and with offset 0 and no
    more than [limit] tasks in the table every matching task is on the
    page. *)
Theorem list_tasks_page (st : Store) (uid flt : str) (limit offset : Z)
    (fault : bool) (page : list TaskView) (total : Z) (has_more : bool) :
  list_tasks.list_tasks_handler st uid flt limit offset fault
  = ListResult page total has_more ->
  (1 <= limit <= 200 /\ 0 <= offset /\
   (flt = lit "all" \/ flt = lit "pending" \/ flt = lit "completed")) /\
  (forall v, v ∈ page ->
     exists t, tasks st !! tv_id v = Some t /\ v = task_view (tv_id v) t /\
       tv_user_id v = uid /\
       (flt = lit "pending" -> tv_completed v = false) /\
       (flt = lit "completed" -> tv_completed v = true)) /\
  len page <= limit /\
  StronglySorted (fun a b => tv_created_at b <= tv_created_at a) page /\
  (has_more = true <-> offset + len page < total) /\
  (offset = 0 -> Z.of_nat (size (tasks st)) <= limit ->
   forall k t, tasks st !! k = Some t -> task_user_id t = uid ->
     (flt = lit "pending" -> task_completed t = false) ->
     (flt = lit "completed" -> task_completed t = true) ->
     task_view k t ∈ page).
Proof.
  unfold list_tasks.list_tasks_handler, list_tasks.validate_list_params.
  destruct (bool_decide (flt ∈ [lit "all"; lit "pending"; lit "completed"]))
    eqn:Hflt; simpl; [|discriminate].
  destruct ((limit <? 1) || (200 <? limit)) eqn:Hlimit; [discriminate|].
  destruct (offset <? 0) eqn:Hoffset; [discriminate|].
  destruct fault; [discriminate|].
  apply orb_false_iff in Hlimit as [Hl1 Hl2].
  apply Z.ltb_ge in Hl1, Hl2, Hoffset.
  apply bool_decide_eq_true in Hflt.
  rewrite !elem_of_cons, elem_of_nil in Hflt.
  set (rows := List.filter _ (map_to_list (tasks st))).
  set (sorted := foldr list_tasks.insert_desc [] rows).
  assert (Hperm : sorted ≡ₚ rows) by apply sort_tasks_perm.
  intros [= <- <- <-].
  split; [naive_solver|]. split; [|split; [|split; [|split]]].
  - intros v Hv. apply list_elem_of_fmap in Hv as ([k t] & -> & Hin).
    assert (Hrow : (k, t) ∈ rows).
    { rewrite <- Hperm. eapply elem_of_submseteq; [exact Hin|].
      etrans; [apply submseteq_take | apply submseteq_drop]. }
    apply list_tasks_selected in Hrow as (Hk & Hown & Hp & Hc).
    exists t. simpl. naive_solver.
  - unfold len. rewrite length_map, length_take. lia.
  - pose proof (sort_tasks_sorted rows) as Hsorted. fold sorted in Hsorted.
    rewrite <- (take_drop (Z.to_nat offset) sorted) in Hsorted.
    apply StronglySorted_app in Hsorted as (_ & _ & Hdrop).
    rewrite <- (take_drop (Z.to_nat limit) (drop (Z.to_nat offset) sorted)) in Hdrop.
    apply StronglySorted_app in Hdrop as (_ & Htake & _).
    eapply (StronglySorted_fmap (fun r : Z * Task => task_view r.1 r.2));
      [|exact Htake]. by intros [??] [??].
  - unfold len. rewrite length_map. apply Z.ltb_lt.
  - intros -> Hsize k t Hk Hown Hp Hc. simpl.
    assert (Hrow : (k, t) ∈ rows) by by apply list_tasks_selected.
    apply (list_elem_of_fmap_2 (fun r : Z * Task => task_view r.1 r.2) _ (k, t)).
    change (Z.to_nat 0) with 0%nat. rewrite drop_0.
    rewrite take_ge; [by rewrite Hperm|].
    rewrite Hperm. subst rows.
    match goal with |- context [List.filter ?f ?l] =>
      pose proof (filter_split_length f l) as Hlen end.
    rewrite length_map_to_list in Hlen. lia.
Qed.

(** The scenario of the spec: u1's pending tasks are "Buy milk". *)
Lemma list_tasks_page_witness :
  list_tasks.list_tasks_handler sample_store (lit "u1") (lit "pending") 50 0 false
  = ListResult [mkTaskView 1 (lit "u1") (lit "Buy milk") None false 100 100] 1 false
  /\ len [mkTaskView 1 (lit "u1") (lit "Buy milk") None false 100 100] <= 50.
Proof.
  split; [reflexivity|].
  destruct (list_tasks_page sample_store (lit "u1") (lit "pending") 50 0 false
              [mkTaskView 1 (lit "u1") (lit "Buy milk") None false 100 100] 1 false)
    as (_ & _ & Hlen & _); [reflexivity|exact Hlen].
Defined.

(** ** Deleting a task *)

(** X9.  [delete_task] by the owner removes the task's row and no
    other; repeated, it answers NotFoundError and changes nothing, and
    so do [complete_task] and [update_task] on the deleted id. *)
Theorem delete_task_removes_once (st : Store) (uid : str) (k : Z) (t : Task) :
  tasks st !! k = Some t -> task_user_id t = uid -> 1 <= k ->
  let first := delete_task.delete_task_handler st uid k false in
  let not_found :=
    Failure (lit "NotFoundError") (lit "Task not found or does not belong to user") in
  first.2 = DeletedResult k (lit "Task deleted successfully") /\
  tasks first.1 !! k = None /\
  (forall j, j <> k -> tasks first.1 !! j = tasks st !! j) /\
  same_log st first.1 /\
  delete_task.delete_task_handler first.1 uid k false = (first.1, not_found) /\
  (forall now,
     complete_task.complete_task_handler first.1 uid k now false
     = (first.1, not_found)) /\
  (forall title description completed now,
     update_task.validate_update_params k title description completed = (true, None) ->
     update_task.update_task_handler first.1 uid k title description completed
       now false = (first.1, not_found)).
Proof.
  intros Hk Hown Hpos first not_found.
  assert (Hfirst : first = (set_tasks st (delete k (tasks st)),
                            DeletedResult k (lit "Task deleted successfully"))).
  { subst first. unfold delete_task.delete_task_handler,
      delete_task.validate_task_id.
    destruct (Z.ltb_spec k 1); [lia|].
    by rewrite <- Hown, (select_task_owner _ _ _ Hk). }
  rewrite Hfirst. simpl.
  assert (Hgone : select_task (set_tasks st (delete k (tasks st))) k uid = None).
  { apply select_task_missing. simpl. apply lookup_delete_eq. }
  split; [done|]. split; [apply lookup_delete_eq|].
  split; [intros j Hj; by apply lookup_delete_ne|].
  split; [by unfold same_log|].
  unfold delete_task.delete_task_handler, delete_task.validate_task_id,
    complete_task.complete_task_handler, complete_task.validate_task_id,
    update_task.update_task_handler.
  destruct (Z.ltb_spec k 1); [lia|]. rewrite Hgone.
  split; [done|]. split; [done|]. by intros ???? ->.
Qed.

Lemma delete_task_removes_once_witness :
  let first := delete_task.delete_task_handler sample_store (lit "u1") 1 false in
  tasks first.1 !! 1 = None /\
  delete_task.delete_task_handler first.1 (lit "u1") 1 false
  = (first.1,
     Failure (lit "NotFoundError") (lit "Task not found or does not belong to user")).
Proof.
  intros first.
  destruct (delete_task_removes_once sample_store (lit "u1") 1
              (mkTask (lit "u1") (lit "Buy milk") None false 100 100))
    as (_ & Hgone & _ & _ & Hagain & _); [reflexivity | reflexivity | lia |].
  split; [exact Hgone | exact Hagain].
Defined.

(** ** Creating a task *)

Lemma truthy_strip (s : str) : truthy (strip s) = true -> truthy s = true.
Proof. by destruct s. Qed.

(** X10.  [add_task] creates a task exactly when the trimmed title is
    non-empty, at most 200 characters and free of null bytes, a
    non-empty description is at most 1000 characters once trimmed and
    free of null bytes, and the session commits.  A refusal leaves the
    store as it was.  The task created takes the next id, belongs to
    the caller, is not completed, and holds the escaped trimmed title;
    an empty description is stored as none, a blank one as the empty
    text. *)
Theorem add_task_accepts_iff (st : Store) (uid title : str)
    (description : option str) (created updated : Z) (fault : bool) :
  let run :=
    add_task.add_task_handler st uid title description created updated fault in
  let title_ok :=
    truthy (strip title) = true /\ len (strip title) <= 200 /\
    contains 0%N (strip title) = false in
  let description_ok :=
    forall d, description = Some d -> truthy d = true ->
      len (strip d) <= 1000 /\ contains 0%N (strip d) = false in
  let stored_description :=
    match description with
    | Some d => if truthy d then Some (html_escape (strip d)) else None
    | None => None
    end in
  let row :=
    mkTask uid (html_escape (strip title)) stored_description false
      created updated in
  ((exists v, run.2 = TaskResult v) <->
   title_ok /\ description_ok /\ fault = false) /\
  ((forall v, run.2 <> TaskResult v) -> run.1 = st) /\
  (forall v, run.2 = TaskResult v ->
     v = task_view (next_task_id st) row /\
     tasks run.1 = <[next_task_id st := row]> (tasks st) /\
     next_task_id run.1 = next_task_id st + 1 /\
     same_log st run.1).
Proof.
  intros run title_ok description_ok stored_description row.
  subst run title_ok description_ok stored_description row.
  unfold add_task.add_task_handler.
  destruct (truthy (strip title)) eqn:Hstrip.
  2:{ rewrite orb_true_r. simpl. split; [|done]. split; [intros [v [=]]|].
      intros (([=] & _) & _). }
  rewrite (truthy_strip _ Hstrip). simpl.
  destruct (Z.ltb_spec 200 (len (strip title))) as [Hlong|Hshort].
  { simpl. split; [|done]. split; [intros [v [=]]|]. intros ((_ & ? & _) & _). lia. }
  destruct (contains 0%N (strip title)) eqn:Hnull.
  { simpl. split; [|done]. split; [intros [v [=]]|]. intros ((_ & _ & [=]) & _). }
  rewrite !sanitize_input_html_escape.
  destruct description as [d|]; [destruct (truthy d) eqn:Hd|].
  - destruct (Z.ltb_spec 1000 (len (strip d))) as [Hdlong|Hdshort].
    { simpl. split; [|done]. split; [intros [v [=]]|].
      intros (_ & Hdesc & _). destruct (Hdesc d eq_refl Hd). lia. }
    destruct (contains 0%N (strip d)) eqn:Hdnull.
    { simpl. split; [|done]. split; [intros [v [=]]|].
      intros (_ & Hdesc & _). destruct (Hdesc d eq_refl Hd). congruence. }
    rewrite sanitize_input_html_escape.
    destruct fault; simpl.
    + split; [|done]. split; [intros [v [=]]|]. intros (_ & _ & [=]).
    + split; [|split].
      * split; [|by eexists]. intros _. split; [done|]. split; [|done].
        intros d' [= <-] _. done.
      * intros Hno. by destruct (Hno _ eq_refl).
      * intros v [= <-]. by unfold same_log.
  - destruct fault; simpl.
    + split; [|done]. split; [intros [v [=]]|]. intros (_ & _ & [=]).
    + split; [|split].
      * split; [|by eexists]. intros _. split; [done|]. split; [|done].
        intros d' [= <-] Hd'. congruence.
      * intros Hno. by destruct (Hno _ eq_refl).
      * intros v [= <-]. by unfold same_log.
  - destruct fault; simpl.
    + split; [|done]. split; [intros [v [=]]|]. intros (_ & _ & [=]).
    + split; [|split].
      * split; [|by eexists]. intros _. split; [done|]. split; [|done].
        intros d' [=].
      * intros Hno. by destruct (Hno _ eq_refl).
      * intros v [= <-]. by unfold same_log.
Qed.

(** Where [add_task] accepts a title by its trimmed length,
    [update_task] measures the title as given. *)
Lemma contains_strip (c : N) (s : str) :
  contains c s = false -> contains c (strip s) = false.
Proof.
  intros H. apply not_true_is_false. rewrite contains_elem_of. intros Hin.
  apply elem_of_strip, contains_elem_of in Hin. congruence.
Qed.

(** X11.  A title longer than 200 characters only by the whitespace
    around it is accepted by [add_task], which measures it trimmed, and
    refused by [update_task], which measures it as given. *)
Theorem title_length_add_versus_update (st : Store) (uid title : str) (k : Z)
    (created updated now : Z) :
  truthy (strip title) = true -> contains 0%N title = false ->
  len (strip title) <= 200 -> 200 < len title -> 1 <= k ->
  (exists v,
     (add_task.add_task_handler st uid title None created updated false).2
     = TaskResult v /\ tv_title v = html_escape (strip title)) /\
  update_task.update_task_handler st uid k (Some title) None None now false
  = (st, Failure (lit "ValidationError")
           (lit "Title must be between 1 and 200 characters")).
Proof.
  intros Hstrip Hnull Hshort Hlong Hk. split.
  - unfold add_task.add_task_handler.
    rewrite (truthy_strip _ Hstrip), Hstrip. simpl.
    destruct (Z.ltb_spec 200 (len (strip title))); [lia|].
    rewrite (contains_strip _ _ Hnull), sanitize_input_html_escape. simpl.
    by eexists.
  - unfold update_task.update_task_handler, update_task.validate_update_params.
    destruct (Z.ltb_spec k 1); [lia|]. simpl.
    rewrite (truthy_strip _ Hstrip), Hstrip. simpl.
    by destruct (Z.ltb_spec 200 (len title)); [|lia].
Qed.

(** Two hundred letters and a trailing space. *)
Lemma title_length_add_versus_update_witness :
  let title := repeat 97%N 200 ++ [32%N] in
  update_task.update_task_handler sample_store (lit "u1") 1 (Some title) None
    None 200 false
  = (sample_store,
     Failure (lit "ValidationError")
       (lit "Title must be between 1 and 200 characters")).
Proof.
  intros title.
  apply (title_length_add_versus_update sample_store (lit "u1") title 1 200 200 200);
    [reflexivity | reflexivity | vm_compute; discriminate | reflexivity | lia].
Defined.

(** ** Ids and the data of other users *)

Lemma others_kept_refl (uid : str) (st : Store) : others_kept uid st st.
Proof. by unfold others_kept. Qed.

Lemma others_kept_trans (uid : str) (a b c : Store) :
  others_kept uid a b -> others_kept uid b c -> others_kept uid a c.
Proof.
  intros [Ht1 Hc1] [Ht2 Hc2]. split.
  - intros k t Hk Hne. apply Ht2; [by apply Ht1 | done].
  - intros id conv Hid Hne. destruct (Hc1 id conv Hid Hne) as [Hb Hmb].
    destruct (Hc2 id conv Hb Hne) as [Hcc Hmc]. split; [done|congruence].
Qed.

(** Replacing the task table by one that keeps the rows of the others
    and the bound on ids. *)
Lemma set_tasks_kept (uid : str) (st : Store) (ts : gmap Z Task) :
  fresh_ids st ->
  (forall k, is_Some (ts !! k) -> is_Some (tasks st !! k)) ->
  (forall k t, tasks st !! k = Some t -> task_user_id t <> uid -> ts !! k = Some t) ->
  fresh_ids (set_tasks st ts) /\ others_kept uid st (set_tasks st ts).
Proof.
  intros ((Hnext & Hbound) & Hconv & Hmsg) Hdom Hothers.
  split; [|by split].
  split; [|by split]. split; [done|]. intros k Hk. by apply Hbound, Hdom.
Qed.

Lemma complete_task_kept (st : Store) (uid : str) (k now : Z) (fault : bool) :
  fresh_ids st ->
  let st' := (complete_task.complete_task_handler st uid k now fault).1 in
  fresh_ids st' /\ others_kept uid st st'.
Proof.
  intros Hfresh. unfold complete_task.complete_task_handler.
  repeat (case_match; simpl; try (split; [done | apply others_kept_refl])).
  match goal with H : select_task _ _ _ = Some _ |- _ =>
    apply select_task_Some in H as [Hrow Hown] end.
  apply set_tasks_kept; [done| |].
  - intros j Hj. destruct (decide (j = k)) as [->|Hne]; [by eexists|].
    by rewrite lookup_insert_ne in Hj.
  - intros j t' Hj Hne. destruct (decide (j = k)) as [->|?]; [congruence|].
    by rewrite lookup_insert_ne.
Qed.

Lemma update_task_kept (st : Store) (uid : str) (k : Z)
    (title description : option str) (completed : option bool) (now : Z)
    (fault : bool) :
  fresh_ids st ->
  let st' := (update_task.update_task_handler st uid k title description
                completed now fault).1 in
  fresh_ids st' /\ others_kept uid st st'.
Proof.
  intros Hfresh. unfold update_task.update_task_handler.
  destruct (update_task.validate_update_params k title description completed)
    as [[|] msg]; simpl; [|split; [done | apply others_kept_refl]].
  destruct fault; simpl; [split; [done | apply others_kept_refl]|].
  destruct (select_task st k uid) as [t|] eqn:Hsel; simpl;
    [|split; [done | apply others_kept_refl]].
  apply select_task_Some in Hsel as [Hrow Hown].
  apply set_tasks_kept; [done| |].
  - intros j Hj. destruct (decide (j = k)) as [->|Hne]; [by eexists|].
    by rewrite lookup_insert_ne in Hj.
  - intros j t' Hj Hne. destruct (decide (j = k)) as [->|?]; [congruence|].
    by rewrite lookup_insert_ne.
Qed.

Lemma delete_task_kept (st : Store) (uid : str) (k : Z) (fault : bool) :
  fresh_ids st ->
  let st' := (delete_task.delete_task_handler st uid k fault).1 in
  fresh_ids st' /\ others_kept uid st st'.
Proof.
  intros Hfresh. unfold delete_task.delete_task_handler.
  repeat (case_match; simpl; try (split; [done | apply others_kept_refl])).
  match goal with H : select_task _ _ _ = Some _ |- _ =>
    apply select_task_Some in H as [Hrow Hown] end.
  apply set_tasks_kept; [done| |].
  - intros j Hj. destruct (decide (j = k)) as [->|Hne]; [by eexists|].
    by rewrite lookup_delete_ne in Hj.
  - intros j t' Hj Hne. destruct (decide (j = k)) as [->|?]; [congruence|].
    by rewrite lookup_delete_ne.
Qed.

Lemma add_task_kept (st : Store) (uid title : str) (description : option str)
    (created updated : Z) (fault : bool) :
  fresh_ids st ->
  let st' := (add_task.add_task_handler st uid title description created
                updated fault).1 in
  fresh_ids st' /\ others_kept uid st st'.
Proof.
  intros Hfresh. unfold add_task.add_task_handler.
  repeat (case_match; simpl; try (split; [done | apply others_kept_refl])).
  all: destruct Hfresh as ((Hnext & Hbound) & Hconv & Hmsg).
  all: split; [|split; [|done]].
  all: try (split; [|done]; split; simpl; [lia|]; intros j Hj;
            destruct (decide (j = next_task_id st)) as [->|Hne]; [lia|];
            rewrite lookup_insert_ne in Hj by done;
            specialize (Hbound j Hj); lia).
  all: intros j t' Hj Hne; simpl;
       destruct (decide (j = next_task_id st)) as [->|?];
       [specialize (Hbound _ (mk_is_Some _ _ Hj)); lia
       | by rewrite lookup_insert_ne].
Qed.

Lemma execute_tool_kept (env : chat.Env) (uid : str) (st : Store) (i : nat)
    (tool_call : ToolCall) :
  fresh_ids st ->
  let st' := (chat.execute_tool env uid st i tool_call).1 in
  fresh_ids st' /\ others_kept uid st st'.
Proof.
  intros Hfresh. unfold chat.execute_tool.
  repeat (case_match; simpl; try (split; [done | apply others_kept_refl])).
  - pose proof (add_task_kept st uid s (chat.kw_description k)
                  (chat.tool_instants env i).1 (chat.tool_instants env i).2
                  (chat.fault_tool env i) Hfresh) as Hkept.
    by match goal with H : add_task.add_task_handler _ _ _ _ _ _ _ = _ |- _ =>
         rewrite H in Hkept end.
  - pose proof (complete_task_kept st uid z (chat.tool_instants env i).1
                  (chat.fault_tool env i) Hfresh) as Hkept.
    by match goal with H : complete_task.complete_task_handler _ _ _ _ _ = _ |- _ =>
         rewrite H in Hkept end.
  - pose proof (delete_task_kept st uid z (chat.fault_tool env i) Hfresh) as Hkept.
    by match goal with H : delete_task.delete_task_handler _ _ _ _ = _ |- _ =>
         rewrite H in Hkept end.
  - pose proof (update_task_kept st uid z (chat.kw_title k)
                  (chat.kw_description k) (chat.kw_completed k)
                  (chat.tool_instants env i).1 (chat.fault_tool env i) Hfresh)
      as Hkept.
    by match goal with H : update_task.update_task_handler _ _ _ _ _ _ _ _ = _ |- _ =>
         rewrite H in Hkept end.
Qed.

Lemma execute_tools_kept (env : chat.Env) (uid : str) (calls : list ToolCall)
    (st : Store) (i : nat) (tool_results : list chat.ToolResultEntry) :
  fresh_ids st ->
  let st' := (chat.execute_tools env uid st i calls tool_results).1 in
  fresh_ids st' /\ others_kept uid st st'.
Proof.
  revert st i tool_results.
  induction calls as [|tool_call rest IH]; intros st i tool_results Hfresh; simpl.
  - split; [done | apply others_kept_refl].
  - pose proof (execute_tool_kept env uid st i tool_call Hfresh) as [Hf1 Hk1].
    destruct (chat.execute_tool env uid st i tool_call) as [st1 entry].
    simpl in Hf1, Hk1.
    destruct (IH st1 (S i)
                (match entry with
                 | Some e => tool_results ++ [e]
                 | None => tool_results
                 end) Hf1) as [Hf2 Hk2].
    split; [exact Hf2 | by eapply others_kept_trans].
Qed.

(** A [store_message] that raises leaves the store as it was. *)
Lemma store_message_validates_then_appends_inv (st : Store) (cid : Z)
    (uid role : str) (content : option str) (created now : Z) (fault : bool)
    (st' : Store) (e : conversation_manager.Error) :
  conversation_manager.store_message st cid uid role content created now fault
  = (st', inl e) -> st' = st.
Proof.
  unfold conversation_manager.store_message. intros Hrun.
  by repeat (case_match; simplify_eq; simpl in *).
Qed.

Lemma store_message_ids (st st' : Store) (cid : Z) (uid role : str)
    (content : option str) (created now : Z) (fault : bool) (m : Message) :
  conversation_manager.store_message st cid uid role content created now fault
  = (st', inr m) ->
  msg_id m = next_message_id st /\
  next_message_id st' = next_message_id st + 1 /\
  tasks st' = tasks st /\ next_task_id st' = next_task_id st /\
  next_conversation_id st' = next_conversation_id st.
Proof.
  unfold conversation_manager.store_message. intros Hrun.
  by repeat (case_match; simplify_eq; simpl in *).
Qed.

Lemma create_conversation_kept (st : Store) (uid other : str)
    (created updated : Z) (fault : bool) :
  fresh_ids st ->
  let st' := (conversation_manager.create_conversation st uid created updated
                fault).1 in
  fresh_ids st' /\ others_kept other st st'.
Proof.
  intros Hfresh. unfold conversation_manager.create_conversation.
  destruct fault; simpl; [split; [done | apply others_kept_refl]|].
  destruct Hfresh as (Htasks & (Hnext & Hbound) & Hmsg).
  assert (Hnew : conversations st !! next_conversation_id st = None).
  { apply eq_None_not_Some. intros Hsome. specialize (Hbound _ Hsome). lia. }
  split.
  - split; [done|]. split; [|done]. simpl. split; [lia|].
    intros k Hk. destruct (decide (k = next_conversation_id st)) as [->|Hne]; [lia|].
    rewrite lookup_insert_ne in Hk by done. specialize (Hbound k Hk). lia.
  - split; [done|]. intros id c Hid Hne. split; [|done]. simpl.
    rewrite lookup_insert_ne; [done|congruence].
Qed.

Lemma store_message_kept (st : Store) (cid : Z) (uid role : str)
    (content : option str) (created now : Z) (fault : bool) :
  fresh_ids st ->
  let st' := (conversation_manager.store_message st cid uid role content
                created now fault).1 in
  fresh_ids st' /\ others_kept uid st st'.
Proof.
  intros Hfresh.
  destruct (conversation_manager.store_message st cid uid role content created
              now fault) as [st' [e|m]] eqn:Hrun; simpl.
  { destruct (store_message_validates_then_appends_inv st cid uid role content
                created now fault st' e Hrun).
    split; [done | apply others_kept_refl]. }
  destruct (store_message_log _ _ _ _ _ _ _ _ _ _ Hrun)
    as (Hlog & Hcid & Hcreated & c & Hc & Hown & Hconv).
  destruct (store_message_ids _ _ _ _ _ _ _ _ _ _ Hrun)
    as (Hmid & Hnext' & Htasks' & Hnt & Hnc).
  destruct Hfresh as (Htasks & (Hcnext & Hcbound) & Hmnext & Hmall & Hmsorted).
  split.
  - split; [by rewrite Htasks', Hnt|]. split.
    + rewrite Hnc, Hconv. split; [done|]. intros k Hk.
      destruct (decide (k = cid)) as [->|Hne]; [by apply Hcbound; eexists|].
      rewrite lookup_insert_ne in Hk by done. by apply Hcbound.
    + rewrite Hnext', Hlog. split; [lia|]. split.
      * apply Forall_app. split.
        -- eapply Forall_impl; [exact Hmall|]. simpl. intros; lia.
        -- constructor; [lia|constructor].
      * rewrite map_app. simpl. apply StronglySorted_app_2;
          [|done|repeat constructor].
        intros x y Hx Hy. apply list_elem_of_singleton in Hy as ->.
        apply list_elem_of_fmap in Hx as (m' & -> & Hm').
        eapply Forall_forall in Hmall; [|exact Hm']. simpl in Hmall. lia.
  - split; [by rewrite Htasks'|]. intros id c' Hid' Hne.
    assert (id <> cid) by congruence.
    split; [by rewrite Hconv, lookup_insert_ne|].
    unfold conversation_manager.messages_of. rewrite Hlog, List.filter_app.
    simpl. rewrite Hcid. destruct (Z.eqb_spec cid id); [congruence|].
    by rewrite app_nil_r.
Qed.

Lemma filter_keeps_ids (f : Message -> bool) (bound : Z) (l : list Message) :
  Forall (fun m => 1 <= msg_id m < bound) l ->
  StronglySorted Z.lt (map msg_id l) ->
  Forall (fun m => 1 <= msg_id m < bound) (List.filter f l) /\
  StronglySorted Z.lt (map msg_id (List.filter f l)).
Proof.
  induction l as [|x l IH]; simpl; [done|].
  intros Hall Hsorted. apply Forall_cons in Hall as [Hx Hall].
  apply StronglySorted_inv in Hsorted as [Hsorted Hlt].
  destruct (IH Hall Hsorted) as [IHall IHsorted].
  destruct (f x); simpl; [|done].
  split; [by constructor|]. constructor; [done|].
  apply Forall_forall. intros y Hy.
  apply list_elem_of_fmap in Hy as (m & -> & Hm).
  apply list_elem_of_In, filter_In in Hm as [Hm _].
  eapply Forall_forall in Hlt; [exact Hlt|].
  apply list_elem_of_fmap. exists m. split; [done|]. by apply list_elem_of_In.
Qed.

Lemma delete_conversation_kept (st : Store) (cid : Z) (uid : str) (fault : bool) :
  fresh_ids st ->
  let st' := (conversation_manager.delete_conversation st cid uid fault).1 in
  fresh_ids st' /\ others_kept uid st st'.
Proof.
  intros Hfresh. unfold conversation_manager.delete_conversation,
    conversation_manager.get_conversation.
  destruct (conversations st !! cid) as [c|] eqn:Hc; simpl;
    [|split; [done | apply others_kept_refl]].
  case_bool_decide as Hown; simpl; [split; [done | apply others_kept_refl]|].
  destruct fault; simpl; [split; [done | apply others_kept_refl]|].
  destruct Hfresh as (Htasks & (Hcnext & Hcbound) & Hmnext & Hmall & Hmsorted).
  destruct (filter_keeps_ids (fun m => negb (msg_conversation_id m =? cid))
              (next_message_id st) (messages st) Hmall Hmsorted) as [Hall' Hsorted'].
  split.
  - split; [done|]. split; [|done]. split; [done|]. simpl. intros k Hk.
    destruct (decide (k = cid)) as [->|Hne]; [by apply Hcbound; eexists|].
    rewrite lookup_delete_ne in Hk by done. by apply Hcbound.
  - split; [done|]. intros id c' Hid Hne.
    assert (id <> cid) by (intros ->; congruence).
    split; [by simpl; rewrite lookup_delete_ne|].
    unfold conversation_manager.messages_of. simpl.
    by apply filter_other_conversation.
Qed.

Lemma resolve_conversation_kept (env : chat.Env) (st : Store) (uid : str)
    (request : chat.ChatRequest) :
  fresh_ids st ->
  let st1 := (chat.resolve_conversation env st uid request).1 in
  fresh_ids st1 /\ others_kept uid st st1.
Proof.
  intros Hfresh. unfold chat.resolve_conversation.
  pose proof (create_conversation_kept st uid uid
                (chat.conversation_instants env).1
                (chat.conversation_instants env).2
                (chat.fault_create_conversation env) Hfresh) as Hcreate.
  destruct (conversation_manager.create_conversation st uid _ _ _)
    as [stc [e|id]]; simpl in Hcreate.
  all: destruct (chat.conversation_id request) as [id'|]; simpl; [|done].
  all: destruct (id' =? 0); simpl; [done|].
  all: destruct (conversation_manager.get_conversation st id' uid); simpl.
  all: split; [done | apply others_kept_refl].
Qed.

Lemma store_turn_kept (env : chat.Env) (st : Store) (cid : Z) (uid : str)
    (request : chat.ChatRequest) (final_response : option str) :
  fresh_ids st ->
  let st' := chat.store_turn env st cid uid request final_response in
  fresh_ids st' /\ others_kept uid st st'.
Proof.
  intros Hfresh. unfold chat.store_turn.
  pose proof (store_message_kept st cid uid (lit "user")
                (Some (chat.message request))
                (chat.user_message_instants env).1
                (chat.user_message_instants env).2
                (chat.fault_store_user env) Hfresh) as Hfirst.
  destruct (conversation_manager.store_message st cid uid (lit "user") _ _ _ _)
    as [st1 [e|m]]; simpl in Hfirst; [done|].
  destruct Hfirst as [Hf1 Hk1].
  destruct (store_message_kept st1 cid uid (lit "assistant") final_response
              (chat.assistant_message_instants env).1
              (chat.assistant_message_instants env).2
              (chat.fault_store_assistant env) Hf1) as [Hf2 Hk2].
  split; [done | by eapply others_kept_trans].
Qed.

(** One chat turn, whatever its outcome. *)
Lemma chat_kept (env : chat.Env) (cm : conversation_manager.ConversationManager)
    (orch : orchestrator.AgentOrchestrator) (st : Store) (uid current : str)
    (request : chat.ChatRequest) :
  fresh_ids st ->
  let st' := (chat.chat env cm orch st uid request current).1 in
  fresh_ids st' /\ others_kept uid st st'.
Proof.
  intros Hfresh. unfold chat.chat.
  case_bool_decide; [split; [done | apply others_kept_refl]|].
  destruct (negb _ || negb _); [split; [done | apply others_kept_refl]|].
  destruct (10000 <? _); [split; [done | apply others_kept_refl]|].
  pose proof (resolve_conversation_kept env st uid request Hfresh) as Hresolve.
  destruct (chat.resolve_conversation env st uid request) as [st1 [out|cid]];
    simpl in Hresolve; [done|].
  destruct Hresolve as [Hf1 Hk1].
  destruct (conversation_manager.get_conversation_history cm st1 cid uid None)
    as [e|history]; [done|].
  destruct (orchestrator.process_message orch (chat.engine env) uid
              (chat.message request) (Some history)
              (Some chat.get_available_tools)) as [agent_result|e].
  2:{ by destruct (orchestrator.isinstance e orchestrator.Exception). }
  pose proof (execute_tools_kept env uid
                (default [] (orchestrator.result_tool_calls agent_result))
                st1 0%nat [] Hf1) as Htools.
  destruct (chat.execute_tools env uid st1 0
              (default [] (orchestrator.result_tool_calls agent_result)) [])
    as [st2 tool_results]. simpl in Htools. destruct Htools as [Hf2 Hk2].
  destruct (chat.final_reply env orch uid request history agent_result
              tool_results) as [out|final_response]; simpl.
  { split; [done | by eapply others_kept_trans]. }
  destruct (store_turn_kept env st2 cid uid request final_response Hf2)
    as [Hf3 Hk3].
  split; [done|]. eapply others_kept_trans; [|exact Hk3].
  by eapply others_kept_trans.
Qed.

Lemma fresh_ids_sample_store : fresh_ids sample_store.
Proof.
  unfold fresh_ids, sample_store. simpl.
  split; [split; [lia|]|split; [split; [lia|]|]].
  - intros k [t Hk]. apply lookup_singleton_Some in Hk as [<- _]. lia.
  - intros k [c Hk]. apply lookup_singleton_Some in Hk as [<- _]. lia.
  - split; [lia|]. split; constructor.
Qed.

(** X13.  A chat turn of user [uid] changes nothing that belongs to
    another user, whatever the completion engine asks for: the tasks of
    the others, their conversations and the messages of these are found
    afterwards as they were. *)
Theorem chat_keeps_other_users_data (env : chat.Env)
    (cm : conversation_manager.ConversationManager)
    (orch : orchestrator.AgentOrchestrator) (st : Store) (uid current : str)
    (request : chat.ChatRequest) :
  fresh_ids st ->
  let st' := (chat.chat env cm orch st uid request current).1 in
  (forall k t, tasks st !! k = Some t -> task_user_id t <> uid ->
     tasks st' !! k = Some t) /\
  (forall id c, conversations st !! id = Some c -> conv_user_id c <> uid ->
     conversations st' !! id = Some c /\
     conversation_manager.messages_of st' id
     = conversation_manager.messages_of st id).
Proof. intros Hfresh. by apply chat_kept. Qed.

(** A turn of u2 in which the engine asks to delete task 1, u1's. *)
Lemma chat_keeps_other_users_data_witness :
  let engine := fun _ : orchestrator.Request =>
    orchestrator.Completed
      [orchestrator.mkChoice (lit "tool_calls") None
         (Some [mkToolCall (lit "call_1") (lit "delete_task") (lit "{}")])] in
  let env :=
    chat.mkEnv engine
      (fun _ => inr (chat.mkKwargs None None (Some 1) None None None None false))
      (fun _ => []) (fun _ => [])
      (150, 150) (fun _ => (160, 160)) (170, 171) (180, 181) 190
      false (fun _ => false) false false in
  let run :=
    chat.chat env conversation_manager.default_manager
      (orchestrator.mkOrchestrator (lit "gpt-4o") (lit "You are a task assistant."))
      sample_store (lit "u2") (chat.mkChatRequest (lit "delete everything") None)
      (lit "u2") in
  tasks run.1 !! 1 = Some (mkTask (lit "u1") (lit "Buy milk") None false 100 100).
Proof.
  intros engine env run.
  destruct (chat_keeps_other_users_data env conversation_manager.default_manager
              (orchestrator.mkOrchestrator (lit "gpt-4o")
                 (lit "You are a task assistant."))
              sample_store (lit "u2") (lit "u2")
              (chat.mkChatRequest (lit "delete everything") None)
              fresh_ids_sample_store) as [Htasks _].
  apply Htasks; [reflexivity | discriminate].
Defined.

(** ** The chat route before the engine is asked *)



(** ** What the orchestrator hands over and returns *)

Lemma handle_exception_shape (e : orchestrator.Raised)
    (r : orchestrator.AgentResult) :
  orchestrator.handle_exception e = orchestrator.Returns r ->
  orchestrator.finish_reason r = lit "error" /\
  orchestrator.result_tool_calls r = None /\
  (exists info, orchestrator.error r = Some info) /\
  exists reply, orchestrator.response r = Some reply /\ truthy reply = true.
Proof.
  unfold orchestrator.handle_exception, orchestrator.error_result.
  repeat case_match; intros [= <-]; simpl;
    (split; [done|split; [done|split; [by eexists|by eexists]]]).
Qed.

(** X15.  Whatever [process_message] returns: tool calls are reported
    only with finish reason "tool_calls", are then not empty and come
    with a text (possibly empty) and no error; an error entry comes
    only with finish reason "error", a non-empty text and no tool
    calls. *)
Theorem process_message_result_shape (orch : orchestrator.AgentOrchestrator)
    (engine : orchestrator.Request -> orchestrator.EngineOutcome)
    (uid message : str) (history : option (list ChatMessage))
    (tools : option (list str)) (r : orchestrator.AgentResult) :
  orchestrator.process_message orch engine uid message history tools
  = orchestrator.Returns r ->
  (forall calls, orchestrator.result_tool_calls r = Some calls ->
     calls <> [] /\ orchestrator.finish_reason r = lit "tool_calls" /\
     orchestrator.error r = None /\
     exists reply, orchestrator.response r = Some reply) /\
  (forall info, orchestrator.error r = Some info ->
     orchestrator.finish_reason r = lit "error" /\
     orchestrator.result_tool_calls r = None /\
     exists reply, orchestrator.response r = Some reply /\ truthy reply = true).
Proof.
  unfold orchestrator.process_message.
  destruct (engine _) as [[|choice rest]|e]; intros Hrun.
  - apply handle_exception_shape in Hrun as (Hf & Hc & _ & Hr).
    split; [intros calls; congruence | done].
  - destruct (bool_decide (orchestrator.choice_finish_reason choice
                           = lit "tool_calls")) eqn:Hreason; simpl in Hrun.
    + destruct (orchestrator.choice_tool_calls choice) as [calls|] eqn:Hcalls;
        [destruct (truthy calls) eqn:Hnonempty|];
        injection Hrun as <-; simpl; rewrite ?Hcalls.
      * split; [|intros info [=]]. intros calls' [= <-].
        split; [by destruct calls|]. split; [by apply bool_decide_eq_true in Hreason|].
        split; [done | by eexists].
      * split; [intros calls' [=] | intros info [=]].
      * split; [intros calls' [=] | intros info [=]].
    + injection Hrun as <-. simpl. split; [intros calls' [=] | intros info [=]].
  - apply handle_exception_shape in Hrun as (Hf & Hc & _ & Hr).
    split; [intros calls; congruence | done].
Qed.

(** The engine asking for one tool call, with no text. *)
Lemma process_message_result_shape_witness :
  let calls := [mkToolCall (lit "call_1") (lit "list_tasks") (lit "{}")] in
  let engine := fun _ : orchestrator.Request =>
    orchestrator.Completed
      [orchestrator.mkChoice (lit "tool_calls") None (Some calls)] in
  orchestrator.process_message
    (orchestrator.mkOrchestrator (lit "gpt-4o") (lit "You are a task assistant."))
    engine (lit "u1") (lit "show my tasks") None (Some chat.get_available_tools)
  = orchestrator.Returns
      (orchestrator.mkAgentResult (lit "tool_calls") (Some []) (Some calls) None)
  /\ calls <> [].
Proof.
  intros calls engine. split; [reflexivity|].
  destruct (process_message_result_shape
              (orchestrator.mkOrchestrator (lit "gpt-4o")
                 (lit "You are a task assistant."))
              engine (lit "u1") (lit "show my tasks") None
              (Some chat.get_available_tools)
              (orchestrator.mkAgentResult (lit "tool_calls") (Some [])
                 (Some calls) None) eq_refl) as [Hcalls _].
  by destruct (Hcalls calls eq_refl).
Defined.

(** ** Rate limiting *)

Lemma clean_old_requests_recent (requests : list Z) (window now ts : Z) :
  ts ∈ auth.clean_old_requests requests window now <->
  ts ∈ requests /\ now - window < ts.
Proof.
  unfold auth.clean_old_requests.
  rewrite !list_elem_of_In, filter_In, Z.ltb_lt. tauto.
Qed.

Lemma clean_old_requests_length (requests : list Z) (window now : Z) :
  len (auth.clean_old_requests requests window now) <= len requests.
Proof.
  unfold auth.clean_old_requests, len. cbv zeta.
  pose proof (filter_split_length (fun ts => now - window <? ts) requests) as Hsplit.
  simpl in Hsplit. lia.
Qed.

Lemma py_min_elem (l : list Z) (m : Z) : auth.py_min l = Some m -> m ∈ l.
Proof.
  destruct l as [|x xs]; [done|]. simpl. intros [= <-].
  induction xs as [|y ys IH]; simpl; [left|].
  destruct (Z.min_spec y (foldr Z.min x ys)) as [[_ ->]|[_ ->]].
  - right. left.
  - apply elem_of_cons in IH as [->|IH]; [left | right; by right].
Qed.

Lemma py_min_nonempty (l : list Z) : 0 < len l -> is_Some (auth.py_min l).
Proof. destruct l; [unfold len; simpl; lia | by eexists]. Qed.

(** What one check does to the store, for the results below. *)
Lemma check_rate_limit_bounds (store : gmap str auth.UserRequests)
    (uid : str) (now now_hour now_minute : Z) :
  let entry := default (auth.mkUserRequests [] []) (store !! uid) in
  let hours := auth.clean_old_requests (auth.hour entry) auth.one_hour now_hour in
  let minutes :=
    auth.clean_old_requests (auth.minute entry) auth.one_minute now_minute in
  let run := auth.check_rate_limit store uid now now_hour now_minute in
  ((len hours < 100 /\ len minutes < 20 /\
    run.1 !! uid = Some (auth.mkUserRequests (hours ++ [now]) (minutes ++ [now])))
   \/ run.1 !! uid = Some (auth.mkUserRequests hours minutes)) /\
  (forall other, other <> uid -> run.1 !! other = store !! other).
Proof.
  intros entry hours minutes run. subst run. unfold auth.check_rate_limit.
  fold entry. fold hours. fold minutes.
  unfold auth.requests_per_hour, auth.requests_per_minute.
  destruct (Z.leb_spec 100 (len hours)) as [Hh|Hh];
    [|destruct (Z.leb_spec 20 (len minutes)) as [Hm|Hm]].
  - destruct (auth.py_min hours); simpl;
      (split; [right; apply lookup_insert_eq|]);
      intros other Hne; by apply lookup_insert_ne.
  - destruct (auth.py_min minutes); simpl;
      (split; [right; apply lookup_insert_eq|]);
      intros other Hne; by apply lookup_insert_ne.
  - simpl. split.
    + left. split; [done|]. split; [done|]. apply lookup_insert_eq.
    + intros other Hne. by apply lookup_insert_ne.
Qed.

(** X16.  One call of [check_rate_limit] never raises; it admits the
    request exactly when the user has fewer than 100 recorded requests
    within the last hour and fewer than 20 within the last minute;
    an admitted request is recorded at the end of both lists of recent
    requests, a refused one is not recorded at all; the entries of
    other users are untouched; and when the clock does not run
    backwards the [retry_after] of a refusal is not negative, and at
    most 3600 when no recorded request lies in the future. *)
Theorem check_rate_limit_admission (store : gmap str auth.UserRequests)
    (uid : str) (now now_hour now_minute : Z) :
  let entry := default (auth.mkUserRequests [] []) (store !! uid) in
  let hours := auth.clean_old_requests (auth.hour entry) auth.one_hour now_hour in
  let minutes :=
    auth.clean_old_requests (auth.minute entry) auth.one_minute now_minute in
  let run := auth.check_rate_limit store uid now now_hour now_minute in
  run.2 <> auth.Raised /\
  (run.2 = auth.Allowed uid <-> len hours < 100 /\ len minutes < 20) /\
  (run.2 = auth.Allowed uid ->
   run.1 !! uid = Some (auth.mkUserRequests (hours ++ [now]) (minutes ++ [now]))) /\
  (run.2 <> auth.Allowed uid ->
   run.1 !! uid = Some (auth.mkUserRequests hours minutes)) /\
  (forall other, other <> uid -> run.1 !! other = store !! other) /\
  (forall d, run.2 = auth.TooManyRequests d ->
     now <= now_hour -> now <= now_minute ->
     0 <= auth.rl_retry_after d /\
     (Forall (fun ts => ts <= now) (auth.hour entry ++ auth.minute entry) ->
      auth.rl_retry_after d <= 3600)).
Proof.
  intros entry hours minutes run. subst run. unfold auth.check_rate_limit.
  fold entry. fold hours. fold minutes.
  unfold auth.requests_per_hour, auth.requests_per_minute.
  assert (Hretry : forall l window now' oldest,
            auth.py_min (auth.clean_old_requests l window now') = Some oldest ->
            0 <= window <= auth.one_hour -> now <= now' ->
            0 <= auth.whole_seconds (oldest + window - now) /\
            (Forall (fun ts => ts <= now) l ->
             auth.whole_seconds (oldest + window - now) <= 3600)).
  { intros l window now' oldest Hmin Hwindow Hclock.
    apply py_min_elem, clean_old_requests_recent in Hmin as [Hin Hrecent].
    unfold auth.whole_seconds, auth.one_hour in *. split.
    - apply Z.quot_pos; lia.
    - intros Hpast. eapply Forall_forall in Hpast; [|exact Hin]. simpl in Hpast.
      change 3600 with (Z.quot 3600000000 1000000).
      apply Z.quot_le_mono; lia. }
  destruct (Z.leb_spec 100 (len hours)) as [Hh|Hh].
  - destruct (py_min_nonempty hours ltac:(lia)) as [oldest Hmin].
    rewrite Hmin. simpl.
    split; [done|]. split; [split; [done|lia]|]. split; [done|].
    split; [intros _; apply lookup_insert_eq|].
    split; [intros other Hne; by apply lookup_insert_ne|].
    intros d [= <-] Hc1 Hc2. simpl.
    destruct (Hretry (auth.hour entry) auth.one_hour now_hour oldest Hmin)
      as [Hpos Hle]; [unfold auth.one_hour; lia | done |].
    split; [done|]. intros Hpast. apply Hle.
    by apply Forall_app in Hpast as [? _].
  - destruct (Z.leb_spec 20 (len minutes)) as [Hm|Hm].
    + destruct (py_min_nonempty minutes ltac:(lia)) as [oldest Hmin].
      rewrite Hmin. simpl.
      split; [done|]. split; [split; [done|lia]|]. split; [done|].
      split; [intros _; apply lookup_insert_eq|].
      split; [intros other Hne; by apply lookup_insert_ne|].
      intros d [= <-] Hc1 Hc2. simpl.
      destruct (Hretry (auth.minute entry) auth.one_minute now_minute oldest Hmin)
        as [Hpos Hle]; [unfold auth.one_minute, auth.one_hour; lia | done |].
      split; [done|]. intros Hpast. apply Hle.
      by apply Forall_app in Hpast as [_ ?].
    + simpl. split; [done|]. split; [done|].
      split; [intros _; apply lookup_insert_eq|].
      split; [done|].
      split; [intros other Hne; by apply lookup_insert_ne|].
      intros d [=].
Qed.

(** X17.  However many requests are served, starting with an empty
    store, no user ever has more than 100 requests recorded for the
    hour or more than 20 for the minute. *)
Theorem rate_limit_store_bounded (requests : list (str * (Z * Z * Z)))
    (uid : str) (entry : auth.UserRequests) :
  auth.serve ∅ requests !! uid = Some entry ->
  len (auth.hour entry) <= 100 /\ len (auth.minute entry) <= 20.
Proof.
  assert (Hstep : forall (store : gmap str auth.UserRequests) rest,
            (forall u e, store !! u = Some e ->
               len (auth.hour e) <= 100 /\ len (auth.minute e) <= 20) ->
            forall u e, auth.serve store rest !! u = Some e ->
               len (auth.hour e) <= 100 /\ len (auth.minute e) <= 20).
  { intros store rest. revert store.
    induction rest as [|[user [[now nh] nm]] rest IH]; intros store Hinv; [done|].
    simpl. apply IH. intros u e Hu.
    destruct (check_rate_limit_bounds store user now nh nm) as [Hown Hoth].
    destruct (decide (u = user)) as [->|Hne]; [|rewrite Hoth in Hu by done; eauto].
    assert (Hold : len (auth.hour (default (auth.mkUserRequests [] [])
                                     (store !! user))) <= 100 /\
                   len (auth.minute (default (auth.mkUserRequests [] [])
                                       (store !! user))) <= 20).
    { destruct (store !! user) as [e0|] eqn:He0; simpl; [by eapply Hinv|].
      unfold len. simpl. lia. }
    pose proof (clean_old_requests_length
                  (auth.hour (default (auth.mkUserRequests [] []) (store !! user)))
                  auth.one_hour nh).
    pose proof (clean_old_requests_length
                  (auth.minute (default (auth.mkUserRequests [] []) (store !! user)))
                  auth.one_minute nm).
    destruct Hown as [(Hh & Hm & Hrec)|Hrej].
    - rewrite Hrec in Hu. injection Hu as <-. simpl.
      unfold len in *. rewrite !length_app. simpl. lia.
    - rewrite Hrej in Hu. injection Hu as <-. simpl. lia. }
  apply Hstep. intros u e Hu. by rewrite lookup_empty in Hu.
Qed.

(** Twenty-one requests of one user at the same instant: the last one
    is refused and twenty are recorded. *)
Lemma rate_limit_store_bounded_witness :
  let requests := replicate 21 (lit "u1", (5, 5, 5)) in
  let entry := auth.mkUserRequests (replicate 20 5) (replicate 20 5) in
  auth.serve ∅ requests !! lit "u1" = Some entry /\
  len (auth.hour entry) <= 100 /\ len (auth.minute entry) <= 20.
Proof.
  intros requests entry.
  assert (Hrun : auth.serve ∅ requests !! lit "u1" = Some entry)
    by (vm_compute; reflexivity).
  split; [exact Hrun|].
  exact (rate_limit_store_bounded requests (lit "u1") entry Hrun).
Defined.

(** ** Error responses *)

Lemma sanitize_input_no_markup (text : str) (c : N) :
  c ∈ error_handler.sanitize_input text ->
  c <> 0%N /\ c <> 60%N /\ c <> 62%N /\ c <> 34%N /\ c <> 39%N.
Proof. rewrite sanitize_input_html_escape. apply html_escape_no_markup. Qed.

Ltac lit_neq :=
  let H := fresh in intros H; vm_compute in H; discriminate H.

Lemma default_message_no_markup (c : N) :
  c ∈ lit "An error occurred" ->
  c <> 0%N /\ c <> 60%N /\ c <> 62%N /\ c <> 34%N /\ c <> 39%N.
Proof.
  rewrite list_elem_of_In. vm_compute.
  intuition (subst; discriminate).
Qed.

(** X18.  [http_exception_handler] fails (with a [TypeError]) exactly
    for a 429 exception whose detail is not a dict and whose [headers]
    attribute is [None].  Otherwise it answers with the status of the
    exception, and the string under [message] in the body never holds
    a null byte, an angle bracket or a quote; for a detail that is not
    a dict the body has a [message] and, under [error], the name of the
    status from the table, [HttpError] for a status not listed. *)
Theorem http_exception_handler_message_escaped (py_int : str -> option Z)
    (exc : error_handler.HTTPException) :
  (error_handler.http_exception_handler py_int exc = error_handler.RaisedTypeError
   <-> error_handler.exc_status_code exc = 429 /\
       (forall d, error_handler.exc_detail exc <> error_handler.DDict d) /\
       error_handler.exc_headers exc = Some None) /\
  (forall r,
     error_handler.http_exception_handler py_int exc = error_handler.Returned r ->
     error_handler.resp_status_code r = error_handler.exc_status_code exc /\
     (forall m c,
        error_handler.resp_content r !! lit "message" = Some (error_handler.VStr m) ->
        c ∈ m ->
        c <> 0%N /\ c <> 60%N /\ c <> 62%N /\ c <> 34%N /\ c <> 39%N) /\
     ((forall d, error_handler.exc_detail exc <> error_handler.DDict d) ->
      error_handler.resp_content r !! lit "error"
      = Some (error_handler.VStr
                (default (lit "HttpError")
                   (error_handler.error_type_mapping
                      (error_handler.exc_status_code exc)))) /\
      exists m,
        error_handler.resp_content r !! lit "message" = Some (error_handler.VStr m))).
Proof.
  destruct exc as [status detail headers].
  assert (Hother : forall message : str,
    (forall c, c ∈ message ->
       c <> 0%N /\ c <> 60%N /\ c <> 62%N /\ c <> 34%N /\ c <> 39%N) ->
    (forall d, detail <> error_handler.DDict d) ->
    let error_type :=
      default (lit "HttpError") (error_handler.error_type_mapping status) in
    let content : gmap str error_handler.Value :=
      <[lit "message" := error_handler.VStr message]>
        (<[lit "error" := error_handler.VStr error_type]> ∅) in
    let run :=
      if status =? 429 then
        match headers with
        | None => error_handler.Returned (error_handler.mkJSONResponse status content)
        | Some None => error_handler.RaisedTypeError
        | Some (Some headers) =>
            match headers !! lit "Retry-After" with
            | None => error_handler.Returned (error_handler.mkJSONResponse status content)
            | Some value =>
                match py_int value with
                | Some n =>
                    error_handler.Returned
                      (error_handler.mkJSONResponse status
                         (<[lit "retry_after" := error_handler.VInt n]> content))
                | None =>
                    error_handler.Returned (error_handler.mkJSONResponse status content)
                end
            end
        end
      else error_handler.Returned (error_handler.mkJSONResponse status content) in
    (run = error_handler.RaisedTypeError
     <-> status = 429 /\ (forall d, detail <> error_handler.DDict d) /\
         headers = Some None) /\
    (forall r, run = error_handler.Returned r ->
       error_handler.resp_status_code r = status /\
       (forall m c,
          error_handler.resp_content r !! lit "message" = Some (error_handler.VStr m) ->
          c ∈ m ->
          c <> 0%N /\ c <> 60%N /\ c <> 62%N /\ c <> 34%N /\ c <> 39%N) /\
       ((forall d, detail <> error_handler.DDict d) ->
        error_handler.resp_content r !! lit "error"
        = Some (error_handler.VStr error_type) /\
        exists m,
          error_handler.resp_content r !! lit "message" = Some (error_handler.VStr m)))).
  { intros message Hclean Hdetail error_type content run.
    assert (Hmessage : content !! lit "message" = Some (error_handler.VStr message))
      by apply lookup_insert_eq.
    assert (Herror : content !! lit "error" = Some (error_handler.VStr error_type)).
    { subst content. rewrite lookup_insert_ne by lit_neq. apply lookup_insert_eq. }
    assert (Hplain : forall r,
              error_handler.Returned (error_handler.mkJSONResponse status content)
              = error_handler.Returned r ->
              error_handler.resp_status_code r = status /\
              (forall m c,
                 error_handler.resp_content r !! lit "message"
                 = Some (error_handler.VStr m) ->
                 c ∈ m ->
                 c <> 0%N /\ c <> 60%N /\ c <> 62%N /\ c <> 34%N /\ c <> 39%N) /\
              ((forall d, detail <> error_handler.DDict d) ->
               error_handler.resp_content r !! lit "error"
               = Some (error_handler.VStr error_type) /\
               exists m,
                 error_handler.resp_content r !! lit "message"
                 = Some (error_handler.VStr m))).
    { intros r [= <-]. cbn [error_handler.resp_status_code error_handler.resp_content].
      split; [done|]. split.
      - intros m c Hm Hc. rewrite Hmessage in Hm. injection Hm as <-. by apply Hclean.
      - intros _. split; [done | by eexists]. }
    subst run. destruct (Z.eqb_spec status 429) as [H429|H429].
    - destruct headers as [[headers|]|].
      + destruct (headers !! lit "Retry-After") as [value|];
          [destruct (py_int value) as [n|]|].
        * split; [split; [done | by intros (_ & _ & [=])]|].
          intros r [= <-].
          cbn [error_handler.resp_status_code error_handler.resp_content].
          split; [done|]. split.
          -- intros m c Hm Hc. rewrite lookup_insert_ne in Hm by lit_neq.
             rewrite Hmessage in Hm. injection Hm as <-. by apply Hclean.
          -- intros _. rewrite !(lookup_insert_ne _ (lit "retry_after")) by lit_neq.
             split; [done | by eexists].
        * split; [split; [done | by intros (_ & _ & [=])] | exact Hplain].
        * split; [split; [done | by intros (_ & _ & [=])] | exact Hplain].
      + split; [done | intros r [=]].
      + split; [split; [done | by intros (_ & _ & [=])] | exact Hplain].
    - split; [split; [done | by intros (? & _)] | exact Hplain]. }
  destruct detail as [d|s|].
  - unfold error_handler.http_exception_handler.
    cbn [error_handler.exc_detail error_handler.exc_status_code
         error_handler.exc_headers].
    split; [split; [done | intros (_ & Hd & _); by destruct (Hd d)]|].
    intros r [= <-].
    cbn [error_handler.resp_status_code error_handler.resp_content].
    split; [done|]. split; [|intros Hd; by destruct (Hd d)].
    intros m c Hm Hc.
    destruct (d !! lit "message") as [[message|n]|] eqn:Hd.
    + rewrite lookup_insert_eq in Hm. injection Hm as <-.
      by eapply sanitize_input_no_markup.
    + congruence.
    + congruence.
  - apply (Hother (if truthy s then error_handler.sanitize_input s
                   else lit "An error occurred")); [|done].
    intros c Hc. destruct (truthy s).
    + by eapply sanitize_input_no_markup.
    + by apply default_message_no_markup.
  - apply (Hother (lit "An error occurred")); [|done].
    apply default_message_no_markup.
Qed.

(** The body of a refusal is one of the two the source writes. *)
Lemma check_rate_limit_detail (store : gmap str auth.UserRequests)
    (uid : str) (now now_hour now_minute : Z) (d : auth.RateLimitDetail) :
  (auth.check_rate_limit store uid now now_hour now_minute).2
  = auth.TooManyRequests d ->
  auth.rl_error d = lit "RateLimitExceeded" /\
  (auth.rl_message d
   = lit "Too many requests. You can make up to 100 requests per hour." /\
   auth.rl_limit d = 100 /\ auth.rl_window d = lit "hour"
   \/
   auth.rl_message d
   = lit "Too many requests. You can make up to 20 requests per minute." /\
   auth.rl_limit d = 20 /\ auth.rl_window d = lit "minute").
Proof.
  unfold auth.check_rate_limit.
  repeat case_match; simpl; intros [=]; subst; simpl; auto.
Qed.

(** X19.  A refusal of [check_rate_limit] reaches the client through
    [http_exception_handler] as it was raised, whatever the headers of
    the exception: status 429 and a body equal to the detail, with
    [RateLimitExceeded] under [error], the computed [retry_after], and
    either limit 100 with window [hour] or limit 20 with window
    [minute]; the handler's escaping changes nothing in the message. *)
Theorem rate_limit_refusal_response (py_int : str -> option Z)
    (store : gmap str auth.UserRequests) (uid : str)
    (now now_hour now_minute : Z) (d : auth.RateLimitDetail)
    (headers : option (option (gmap str str))) :
  (auth.check_rate_limit store uid now now_hour now_minute).2
  = auth.TooManyRequests d ->
  error_handler.http_exception_handler py_int (auth.too_many_requests d headers)
  = error_handler.Returned
      (error_handler.mkJSONResponse 429 (auth.detail_dict d)) /\
  auth.detail_dict d !! lit "error"
  = Some (error_handler.VStr (lit "RateLimitExceeded")) /\
  auth.detail_dict d !! lit "retry_after"
  = Some (error_handler.VInt (auth.rl_retry_after d)) /\
  (auth.detail_dict d !! lit "limit" = Some (error_handler.VInt 100) /\
   auth.detail_dict d !! lit "window" = Some (error_handler.VStr (lit "hour"))
   \/
   auth.detail_dict d !! lit "limit" = Some (error_handler.VInt 20) /\
   auth.detail_dict d !! lit "window" = Some (error_handler.VStr (lit "minute"))).
Proof.
  intros Hrun. apply check_rate_limit_detail in Hrun as [Herror Hcases].
  assert (Hmessage : auth.detail_dict d !! lit "message"
                     = Some (error_handler.VStr (auth.rl_message d))).
  { unfold auth.detail_dict. rewrite lookup_insert_ne by lit_neq.
    apply lookup_insert_eq. }
  assert (Hlimit : auth.detail_dict d !! lit "limit"
                   = Some (error_handler.VInt (auth.rl_limit d))).
  { unfold auth.detail_dict. rewrite !(lookup_insert_ne _ _ (lit "limit")) by lit_neq.
    apply lookup_insert_eq. }
  assert (Hwindow : auth.detail_dict d !! lit "window"
                    = Some (error_handler.VStr (auth.rl_window d))).
  { unfold auth.detail_dict. rewrite !(lookup_insert_ne _ _ (lit "window")) by lit_neq.
    apply lookup_insert_eq. }
  assert (Hsame : error_handler.sanitize_input (auth.rl_message d)
                  = auth.rl_message d).
  { destruct Hcases as [(-> & _)|(-> & _)]; by vm_compute. }
  split; [|split; [|split]].
  - unfold error_handler.http_exception_handler, auth.too_many_requests.
    cbn [error_handler.exc_detail error_handler.exc_status_code].
    rewrite Hmessage, Hsame. by rewrite insert_id.
  - unfold auth.detail_dict. rewrite lookup_insert_eq. by rewrite Herror.
  - unfold auth.detail_dict.
    rewrite !(lookup_insert_ne _ _ (lit "retry_after")) by lit_neq.
    apply lookup_insert_eq.
  - rewrite Hlimit, Hwindow.
    destruct Hcases as [(_ & -> & ->)|(_ & -> & ->)]; [by left | by right].
Qed.

(** The twenty-first request of one user within a minute. *)
Lemma rate_limit_refusal_response_witness :
  let store := auth.serve ∅ (replicate 20 (lit "u1", (5, 5, 5))) in
  let d :=
    auth.mkRateLimitDetail (lit "RateLimitExceeded")
      (lit "Too many requests. You can make up to 20 requests per minute.")
      60 20 (lit "minute") in
  (auth.check_rate_limit store (lit "u1") 5 5 5).2 = auth.TooManyRequests d /\
  error_handler.http_exception_handler (fun _ => None)
    (auth.too_many_requests d (Some None))
  = error_handler.Returned
      (error_handler.mkJSONResponse 429 (auth.detail_dict d)).
Proof.
  intros store d.
  assert (Hrun : (auth.check_rate_limit store (lit "u1") 5 5 5).2
                 = auth.TooManyRequests d) by (vm_compute; reflexivity).
  split; [exact Hrun|].
  exact (proj1 (rate_limit_refusal_response (fun _ => None) store (lit "u1")
                  5 5 5 d (Some None) Hrun)).
Defined.
